(** * stock-ma: the dip-detection core of [server.py]

    A shallow embedding of [_get_last_close_and_dma] and of the body of
    [get_dip], and the properties of the specification checked on it.

    Numbers.  Python floats are modelled by exact rationals ([Q]); a
    missing value (NaN) is [None] in a cell of type [option Q].  The
    arithmetic of the program is therefore the ideal one: no binary
    rounding, no infinities.  The program computes in binary64: its
    rolling mean is a rounded running sum, which is missing when that
    sum leaves the range of the numbers, and its dip is a rounded
    quotient.  What is stated below of the extractor and of the batch
    concerns which cells are read, what is raised and when, and how rows
    are collected; what is stated of the classifier concerns the ladder,
    the rounding of a given number and the order of dips.  The module
    [Binary64] repeats the arithmetic of the classifier on IEEE binary64
    numbers, to evaluate it at given points.  Exceptions are values of
    the type [exn], and a computation that may raise returns a
    [result]. *)

From Stdlib Require Import List String Ascii Bool Arith ZArith QArith Qabs Qround Lia Lqa.
From Stdlib Require PrimFloat.
From Stdlib Require Import Sorted Permutation OrderedTypeEx.
Import ListNotations.
Open Scope Q_scope.

(** ** Exceptions and results *)

Inductive exn : Type :=
| ValueError (msg : string)
| IndexError (msg : string)
| ZeroDivisionError (msg : string)
| HTTPException (status_code : Z) (detail : string).

Inductive result (A : Type) : Type :=
| Ok (a : A)
| Raise (e : exn).
Arguments Ok {A} a.
Arguments Raise {A} e.

Definition bind {A B : Type} (m : result A) (k : A -> result B) : result B :=
  match m with
  | Ok a => k a
  | Raise e => Raise e
  end.

Notation "x <- m ;; k" := (bind m (fun x => k))
  (at level 61, m at next level, right associativity).

(** ** Python arithmetic on the numbers of the program *)

(** [a / b] on floats: a zero divisor raises. *)
Definition truediv (a b : Q) : result Q :=
  if Qeq_bool b 0 then Raise (ZeroDivisionError "float division by zero")
  else Ok (a / b).

(** Round half to even, to an integer. *)
Definition round_half_even (q : Q) : Z :=
  let f := Qfloor q in
  match Qcompare (q - inject_Z f) (1 # 2) with
  | Lt => f
  | Gt => (f + 1)%Z
  | Eq => if Z.even f then f else (f + 1)%Z
  end.

(** [round(x, 2)]: the nearest multiple of 1/100, ties to even. *)
Definition round2 (x : Q) : Q :=
  Qred (inject_Z (round_half_even (x * 100)) / 100).

(** ** The classification of [get_dip] (lines 136-187) *)

Definition amount : Q := 100.
Definition dip_100 : Q := 10.
Definition dip_50 : Q := 7.
Definition dip_25 : Q := 4.

(** Line 164: [dip = ((last_dma - last_close) / last_dma) * 100], in
    exact arithmetic ([Binary64.dip_percent] is the rounded one). *)
Definition dip_percent (last_close last_dma : Q) : result Q :=
  q <- truediv (last_dma - last_close) last_dma ;;
  Ok (q * 100).

(** Lines 166-177: the ladder, giving [(action, deploy_amount)]. *)
Definition select_action (dip : Q) : string * Q :=
  if Qle_bool dip_100 dip then ("🟢 Deploy 100%"%string, amount)
  else if Qle_bool dip_50 dip then ("🟡 Deploy 50%"%string, 0.5 * amount)
  else if Qle_bool dip_25 dip then ("🟠 Deploy 25%"%string, 0.25 * amount)
  else ("⚪ Hold"%string, 0).

(** The dictionary appended to [results] (lines 179-187). *)
Record DipRow : Type := mkDipRow {
  Index : string;
  Ticker : string;
  Current_Price : Q;
  DMA_200 : Q;
  Dip_pct : Q;
  Action : string;
  Deploy : Q
}.

Definition make_row (name ticker : string) (last_close last_dma dip : Q) : DipRow :=
  let '(action, deploy_amount) := select_action dip in
  {| Index := name;
     Ticker := ticker;
     Current_Price := round2 last_close;
     DMA_200 := round2 last_dma;
     Dip_pct := round2 dip;
     Action := action;
     Deploy := round2 deploy_amount |}.

(** Lines 164-187 for one instrument whose extraction gave
    [(last_close, last_dma)]. *)
Definition classify (name ticker : string) (last_close last_dma : Q) : result DipRow :=
  dip <- dip_percent last_close last_dma ;;
  Ok (make_row name ticker last_close last_dma dip).

(** ** The same lines in binary64

    Lines 164-177 once more, on IEEE binary64 numbers as the interpreter
    computes them, to check the ideal arithmetic above against the
    rounded one at given points. *)

Module Binary64.

Import PrimFloat.

Definition truediv (a b : float) : result float :=
  if PrimFloat.eqb b 0%float
  then Raise (ZeroDivisionError "float division by zero")
  else Ok (a / b)%float.

Definition amount : float := 100%float.
Definition dip_100 : float := 10%float.
Definition dip_50 : float := 7%float.
Definition dip_25 : float := 4%float.

Definition dip_percent (last_close last_dma : float) : result float :=
  q <- truediv (last_dma - last_close)%float last_dma ;;
  Ok (q * 100)%float.

Definition select_action (dip : float) : string * float :=
  if PrimFloat.leb dip_100 dip then ("🟢 Deploy 100%"%string, amount)
  else if PrimFloat.leb dip_50 dip then ("🟡 Deploy 50%"%string, (0.5 * amount)%float)
  else if PrimFloat.leb dip_25 dip then ("🟠 Deploy 25%"%string, (0.25 * amount)%float)
  else ("⚪ Hold"%string, 0%float).

End Binary64.

(** ** The pandas objects the extractor uses

    A [DataFrame] is kept row by row: [columns] are the (first-level)
    column labels and each row of [values] holds one cell per label.  A
    frame downloaded with a nested price dimension has several columns
    labelled ["Close"]. *)

Abbreviation cell := (option Q) (only parsing).
Abbreviation row := (list (option Q)) (only parsing).

Record DataFrame : Type := mkDataFrame {
  columns : list string;
  values : list row
}.

(** [pd.notna(v)]. *)
Definition notna (v : cell) : bool :=
  match v with
  | Some _ => true
  | None => false
  end.

(** [df.empty]: an axis of length zero. *)
Definition empty (df : DataFrame) : bool :=
  match columns df, values df with
  | [], _ => true
  | _, [] => true
  | _, _ => false
  end.

(** ["Close" in data.columns]. *)
Definition has_column (key : string) (df : DataFrame) : bool :=
  existsb (String.eqb key) (columns df).

(** The cells of a row that stand under the label [key]. *)
Fixpoint select_label (key : string) (labels : list string) (r : row) : row :=
  match labels with
  | [] => []
  | l :: ls =>
      if String.eqb key l then hd None r :: select_label key ls (tl r)
      else select_label key ls (tl r)
  end.

(** [pd.DataFrame(data[key])]: the columns labelled [key], as a frame. *)
Definition getitem (key : string) (df : DataFrame) : DataFrame :=
  {| columns := filter (String.eqb key) (columns df);
     values := map (select_label key (columns df)) (values df) |}.

(** Column [j] of a frame, read downwards. *)
Definition column (j : nat) (rows : list row) : list cell :=
  map (fun r => nth j r None) rows.

(** The numbers of a list of cells, when none is missing. *)
Fixpoint all_present (l : list cell) : option (list Q) :=
  match l with
  | [] => Some []
  | None :: _ => None
  | Some v :: l' =>
      match all_present l' with
      | Some vs => Some (v :: vs)
      | None => None
      end
  end.

Definition Qsum (l : list Q) : Q := fold_right Qplus 0 l.

(** The mean as the specification words it. *)
Definition arithmetic_mean (l : list Q) : Q :=
  Qsum l / inject_Z (Z.of_nat (List.length l)).

(** The [w] cells of [xs] that end at position [i]. *)
Definition window (w : nat) (xs : list cell) (i : nat) : list cell :=
  firstn w (skipn (S i - w) xs).

(** [xs.rolling(window=w).mean()] at position [i]: missing until [w]
    observations are in the window, and whenever one of them is missing
    ([min_periods] defaults to the window length).  The value is the
    exact mean of the window; pandas gives its binary64 running-sum
    approximation. *)
Definition rolling_mean_at (w : nat) (xs : list cell) (i : nat) : cell :=
  if (w <=? S i)%nat then
    match all_present (window w xs i) with
    | Some vs => Some (Qsum vs / inject_Z (Z.of_nat w))
    | None => None
    end
  else None.

(** [df.rolling(window=w).mean()]: every column on its own, same index. *)
Definition rolling_mean (w : nat) (df : DataFrame) : DataFrame :=
  {| columns := columns df;
     values :=
       map (fun i =>
              map (fun j => rolling_mean_at w (column j (values df)) i)
                  (seq 0 (List.length (columns df))))
           (seq 0 (List.length (values df))) |}.

(** [df.dropna(how="all")]: the rows with at least one value. *)
Definition dropna_all (df : DataFrame) : DataFrame :=
  {| columns := columns df;
     values := filter (existsb notna) (values df) |}.

(** [df.iloc[-1]]. *)
Definition iloc_last (df : DataFrame) : result row :=
  match rev (values df) with
  | [] => Raise (IndexError "single positional indexer is out-of-bounds")
  | r :: _ => Ok r
  end.

(** The loop [for v in row.values: if pd.notna(v): x = float(v); break]. *)
Fixpoint first_notna (r : row) : option Q :=
  match r with
  | [] => None
  | Some v :: _ => Some v
  | None :: r' => first_notna r'
  end.

(** ** [_get_last_close_and_dma] (lines 53-101) *)

Definition _get_last_close_and_dma (data : option DataFrame) : result (Q * Q) :=
  match data with
  | None => Raise (ValueError "no data")
  | Some data =>
      if empty data then Raise (ValueError "no data")
      else if negb (has_column "Close" data) then Raise (ValueError "no Close column")
      else
        let close_df := getitem "Close" data in
        let dma := rolling_mean 200 close_df in
        last_close_row <- iloc_last (dropna_all close_df) ;;
        last_dma_row <-
          (if negb (empty (dropna_all dma))
           then r <- iloc_last (dropna_all dma) ;; Ok (Some r)
           else Ok None) ;;
        let last_close := first_notna last_close_row in
        let last_dma :=
          match last_dma_row with
          | Some r => first_notna r
          | None => None
          end in
        match last_close, last_dma with
        | Some c, Some d => Ok (c, d)
        | _, _ => Raise (ValueError "insufficient data for 200DMA or last close")
        end
  end.

(** ** [get_dip] (lines 129-192) *)

Definition index_options : list (string * string) :=
  [ ("S&P 500", "^GSPC");
    ("Nifty 50", "^NSEI");
    ("Nifty Midcap 150", "0P0001IAU9.BO");
    ("Nifty Smallcap 250", "0P0001Q0UH.BO");
    ("NASDAQ", "^IXIC");
    ("BTC", "BTC-USD") ]%string.

Definition no_results : exn :=
  HTTPException 404 "No results available. Data may be missing or API limits reached.".

(** [data is None or data.empty]. *)
Definition none_or_empty (data : option DataFrame) : bool :=
  match data with
  | None => true
  | Some df => empty df
  end.

Section Batch.

(** [yf.download(ticker, start=..., end=...)] for the day of the
    request: it raises, or returns nothing, or returns a frame. *)
Variable download : string -> result (option DataFrame).

(** One turn of the loop (lines 148-187): [Ok None] is [continue],
    [Ok (Some r)] is [results.append(r)]; the two [try] blocks absorb
    what the download and the extraction raise, the lines after them
    are not guarded. *)
Definition get_dip_body (name ticker : string) : result (option DipRow) :=
  match download ticker with
  | Raise _ => Ok None
  | Ok data =>
      if none_or_empty data then Ok None
      else
        match _get_last_close_and_dma data with
        | Raise _ => Ok None
        | Ok (last_close, last_dma) =>
            r <- classify name ticker last_close last_dma ;;
            Ok (Some r)
        end
  end.

Fixpoint get_dip_loop (items : list (string * string)) (results : list DipRow)
  : result (list DipRow) :=
  match items with
  | [] => Ok results
  | (name, ticker) :: rest =>
      o <- get_dip_body name ticker ;;
      match o with
      | None => get_dip_loop rest results
      | Some r => get_dip_loop rest (results ++ [r])
      end
  end.

Definition get_dip : result (list DipRow) :=
  results <- get_dip_loop index_options [] ;;
  match results with
  | [] => Raise no_results
  | _ => Ok results
  end.

(** An instrument is dropped when the download raises, when it gives
    no rows, or when the extraction raises. *)
Definition instrument_fails (ticker : string) : bool :=
  match download ticker with
  | Raise _ => true
  | Ok data =>
      none_or_empty data ||
      match _get_last_close_and_dma data with
      | Raise _ => true
      | Ok _ => false
      end
  end.

End Batch.

(** ** Vocabulary of the specification *)

(** [y] is [x] rounded to two decimal places: a whole number of
    hundredths, at most half a hundredth away from [x]. *)
Definition rounded_to_2_places (y x : Q) : Prop :=
  (exists n : Z, y == inject_Z n / 100) /\ Qabs (y - x) <= 1 # 200.

(** The fraction of [amount] that a dip deploys. *)
Definition deploy_fraction (dip : Q) : Q := snd (select_action dip) / amount.


(** The closing prices of a frame, and their 200-session average. *)
Definition close_table (df : DataFrame) : list row :=
  values (getitem "Close" df).

Definition dma_table (df : DataFrame) : list row :=
  values (rolling_mean 200 (getitem "Close" df)).

(** How many cells hold a value. *)
Definition non_missing (l : list cell) : nat := List.length (filter notna l).

Definition non_missing_closes (df : DataFrame) : nat :=
  non_missing (List.concat (close_table df)).



(** [v] is the first value of row [r] in column order, found in column [j]. *)
Definition first_value (r : row) (j : nat) (v : Q) : Prop :=
  nth j r None = Some v /\ forall j', (j' < j)%nat -> nth j' r None = None.

(** [r] is row [i] of [t], it holds a value, and no later row does. *)
Definition last_valued_row (t : list row) (i : nat) (r : row) : Prop :=
  exists before after,
    t = before ++ r :: after /\
    List.length before = i /\
    existsb notna r = true /\
    Forall (fun r' => existsb notna r' = false) after.

(** What the specification calls [InsufficientData]: the errors the
    extractor raises. *)
Definition InsufficientData (e : exn) : Prop :=
  match e with
  | ValueError _ | IndexError _ => True
  | _ => False
  end.

(** The turns of the loop, collected front to back: what [get_dip_loop]
    appends to the list it is given. *)
Fixpoint collect (download : string -> result (option DataFrame))
  (items : list (string * string)) : result (list DipRow) :=
  match items with
  | [] => Ok []
  | (name, ticker) :: rest =>
      o <- get_dip_body download name ticker ;;
      rows <- collect download rest ;;
      Ok (match o with
          | None => rows
          | Some r => r :: rows
          end)
  end.

(** The configured instruments that are not dropped, in configuration
    order. *)
Definition surviving (download : string -> result (option DataFrame))
  (items : list (string * string)) : list (string * string) :=
  filter (fun it => negb (instrument_fails download (snd it))) items.

(** The answer of the endpoint for a list of rows. *)
Definition respond (rows : list DipRow) : result (list DipRow) :=
  match rows with
  | [] => Raise no_results
  | _ => Ok rows
  end.

(** ** Series used as concrete inputs *)

(** A frame with flat columns, as [yf.download] gives for one ticker. *)
Definition flat_frame (closes : list cell) : DataFrame :=
  {| columns := ["Open"; "Close"; "Volume"]%string;
     values := map (fun c => [c; c; Some 1000]) closes |}.

(** 200 sessions that all closed at zero. *)
Definition zero_series : DataFrame := flat_frame (repeat (Some 0) 200).


(** 200 closes at 1, a missing session, and a last close at 5. *)
Definition late_close_series : DataFrame :=
  flat_frame (repeat (Some 1) 200 ++ [None; Some 5]).

(** 199 closes at 100 and a last close at 90. *)
Definition dipping_series : DataFrame :=
  flat_frame (repeat (Some 100) 199 ++ [Some 90]).

(** 199 closes: one short of a window. *)
Definition short_series : DataFrame := flat_frame (repeat (Some 3) 199).



(** A day on which two of the six downloads give nothing. *)
Definition two_down (ticker : string) : result (option DataFrame) :=
  if String.eqb ticker "^NSEI" then Raise (ValueError "download failed")
  else if String.eqb ticker "BTC-USD" then Ok (Some (flat_frame []))
  else Ok (Some dipping_series).

(** ** Further vocabulary: the outcomes of the extractor *)

(** No row of the table holds a value. *)
Definition no_value (t : list row) : Prop :=
  Forall (fun r => existsb notna r = false) t.

(** Column [j] of [t] holds the values [vs] in the 200 rows that end at
    row [i]. *)
Definition full_window (t : list row) (i j : nat) (vs : list Q) : Prop :=
  (200 <= S i)%nat /\ (i < List.length t)%nat /\
  window 200 (column j t) i = map Some vs.



(** A frame whose closes are all missing, and one without closes. *)
Definition missing_series : DataFrame := flat_frame (repeat None 10).

Definition no_close_frame : DataFrame :=
  {| columns := ["Open"; "Volume"]%string;
     values := [[Some 1; Some 1000]] |}.

(** [df] with the rows [more] appended at its end. *)
Definition with_more_rows (df : DataFrame) (more : list row) : DataFrame :=
  {| columns := columns df; values := values df ++ more |}.

(** [dipping_series] with other prices and volumes, and two sessions
    added whose close is not there yet. *)
Definition dipping_series_other_columns : DataFrame :=
  {| columns := ["Open"; "Close"; "Volume"]%string;
     values := map (fun c => [Some 7; c; None])
                   (repeat (Some 100) 199 ++ [Some 90]) |}.

Definition unfinished_rows : list row :=
  [[Some 91; None; Some 0]; [None; None; None]].

(** An instrument that is kept and whose moving average is zero. *)
Definition zero_average_instrument
  (download : string -> result (option DataFrame)) (item : string * string) : Prop :=
  exists data last_close last_dma,
    download (snd item) = Ok data /\
    none_or_empty data = false /\
    _get_last_close_and_dma data = Ok (last_close, last_dma) /\
    last_dma == 0.

(** A day on which one download gives closes at zero. *)
Definition one_zero (ticker : string) : result (option DataFrame) :=
  if String.eqb ticker "^IXIC" then Ok (Some zero_series)
  else Ok (Some dipping_series).

(** [two_down] with answers for tickers that are not configured. *)
Definition two_down_and_more (ticker : string) : result (option DataFrame) :=
  if String.eqb ticker "^FTSE" then Ok (Some zero_series)
  else two_down ticker.

(** ** [list_routes] (lines 114-126)

    A route of the application is taken with what the function reads of
    it: its [path] and its [methods] attribute, which a route may lack
    ([hasattr] is false), hold as [None], or hold as a set of names,
    given here as the list of its elements in the order of iteration. *)

Inductive methods_attr : Type :=
| NoAttr
| AttrNone
| AttrSet (ms : list string).

Record Route : Type := mkRoute {
  path : string;
  methods : methods_attr
}.

Inductive type_error : Type :=
| TypeError (msg : string).

(** [sorted] on strings: ascending, by code points. *)
Fixpoint insort (s : string) (l : list string) : list string :=
  match l with
  | [] => [s]
  | x :: l' => if String.leb s x then s :: l else x :: insort s l'
  end.

Definition sorted (l : list string) : list string := fold_right insort [] l.

(** [sorted(list(r.methods)) if hasattr(r, "methods") else []]. *)
Definition route_methods (r : Route) : type_error + list string :=
  match methods r with
  | NoAttr => inr []
  | AttrNone => inl (TypeError "'NoneType' object is not iterable")
  | AttrSet ms => inr (sorted ms)
  end.

Fixpoint list_routes_loop (app_routes : list Route)
  (routes : list (string * list string))
  : type_error + list (string * list string) :=
  match app_routes with
  | [] => inr routes
  | r :: rest =>
      match route_methods r with
      | inl e => inl e
      | inr ms => list_routes_loop rest (routes ++ [(path r, ms)])
      end
  end.

Definition list_routes (app_routes : list Route)
  : type_error + list (string * list string) :=
  list_routes_loop app_routes [].

(** A list of names in ascending order. *)
Definition ascending (l : list string) : Prop :=
  Sorted (fun a b => String.leb a b = true) l.

(** What the entry of a route must be. *)
Definition entry_of (r : Route) (entry : string * list string) : Prop :=
  fst entry = path r /\
  match methods r with
  | NoAttr => snd entry = []
  | AttrNone => False
  | AttrSet ms => ascending (snd entry) /\ Permutation (snd entry) ms
  end.

(** Routes such as FastAPI registers for this application, and a mounted
    one, which has no [methods]. *)
Definition app_routes_example : list Route :=
  [ mkRoute "/openapi.json" (AttrSet ["HEAD"; "GET"]);
    mkRoute "/docs" (AttrSet ["GET"; "HEAD"]);
    mkRoute "/" (AttrSet ["GET"]);
    mkRoute "/ping" (AttrSet ["HEAD"]);
    mkRoute "/routes" (AttrSet ["GET"]);
    mkRoute "/dip" (AttrSet ["GET"]);
    mkRoute "/static" NoAttr ]%string.

(** * Properties of the classifier *)

Lemma Qle_bool_false_lt (a b : Q) : Qle_bool a b = false -> b < a.
Proof.
  intros H. apply Qnot_le_lt. intros Hle.
  apply Qle_bool_iff in Hle. congruence.
Qed.

Lemma Qle_bool_true (a b : Q) : a <= b -> Qle_bool a b = true.
Proof. apply Qle_bool_iff. Qed.

Lemma Qle_bool_false (a b : Q) : b < a -> Qle_bool a b = false.
Proof.
  intros H. destruct (Qle_bool a b) eqn:E; [|reflexivity].
  apply Qle_bool_iff in E. exfalso. apply (Qlt_not_le _ _ H E).
Qed.

(** The four rungs of the ladder, one case each. *)
Lemma select_action_cases (dip : Q) :
  (dip_100 <= dip /\ select_action dip = ("🟢 Deploy 100%"%string, amount)) \/
  (dip_50 <= dip /\ dip < dip_100 /\
     select_action dip = ("🟡 Deploy 50%"%string, 0.5 * amount)) \/
  (dip_25 <= dip /\ dip < dip_50 /\
     select_action dip = ("🟠 Deploy 25%"%string, 0.25 * amount)) \/
  (dip < dip_25 /\ select_action dip = ("⚪ Hold"%string, 0)).
Proof.
  unfold select_action.
  destruct (Qle_bool dip_100 dip) eqn:E1.
  { left. split; [now apply Qle_bool_iff | reflexivity]. }
  destruct (Qle_bool dip_50 dip) eqn:E2.
  { right; left. repeat split;
      [now apply Qle_bool_iff | now apply Qle_bool_false_lt]. }
  destruct (Qle_bool dip_25 dip) eqn:E3.
  { right; right; left. repeat split;
      [now apply Qle_bool_iff | now apply Qle_bool_false_lt]. }
  right; right; right. split; [now apply Qle_bool_false_lt | reflexivity].
Qed.

(** C3. The tier is chosen by a descending ladder of closed-above
    thresholds: a dip of at least 10 deploys 100%; otherwise a dip of at
    least 7 deploys 50%; otherwise a dip of at least 4 deploys 25%;
    otherwise hold.  A dip of exactly 10 is in the first tier, 9.999 in
    the second, and 12, which passes all three tests, is in the first. *)
Theorem tier_ladder_closed_above :
  (forall dip : Q,
      (dip_100 <= dip ->
       select_action dip = ("🟢 Deploy 100%"%string, amount)) /\
      (dip_50 <= dip -> dip < dip_100 ->
       select_action dip = ("🟡 Deploy 50%"%string, 0.5 * amount)) /\
      (dip_25 <= dip -> dip < dip_50 ->
       select_action dip = ("🟠 Deploy 25%"%string, 0.25 * amount)) /\
      (dip < dip_25 ->
       select_action dip = ("⚪ Hold"%string, 0))) /\
  select_action 10 = ("🟢 Deploy 100%"%string, amount) /\
  select_action 9.999 = ("🟡 Deploy 50%"%string, 0.5 * amount) /\
  select_action 12 = ("🟢 Deploy 100%"%string, amount) /\
  deploy_fraction 10 == 1 /\ deploy_fraction 9.999 == 1 # 2.
Proof.
  split; [|repeat split].
  intros dip. unfold select_action. repeat split.
  - intros H. now rewrite (Qle_bool_true _ _ H).
  - intros H1 H2.
    assert (H3 : dip_25 < dip_100) by reflexivity.
    now rewrite (Qle_bool_false _ _ H2), (Qle_bool_true _ _ H1).
  - intros H1 H2.
    assert (H3 : dip < dip_100)
      by (apply Qlt_trans with dip_50; [exact H2 | reflexivity]).
    now rewrite (Qle_bool_false _ _ H3), (Qle_bool_false _ _ H2),
      (Qle_bool_true _ _ H1).
  - intros H.
    assert (H2 : dip < dip_50)
      by (apply Qlt_trans with dip_25; [exact H | reflexivity]).
    assert (H3 : dip < dip_100)
      by (apply Qlt_trans with dip_50; [exact H2 | reflexivity]).
    now rewrite (Qle_bool_false _ _ H3), (Qle_bool_false _ _ H2),
      (Qle_bool_false _ _ H).
Qed.

Lemma tier_ladder_closed_above_witness :
  dip_50 <= 9.999 /\ 9.999 < dip_100 /\
  select_action 9.999 = ("🟡 Deploy 50%"%string, 0.5 * amount).
Proof.
  assert (H1 : dip_50 <= 9.999) by (unfold Qle; simpl; lia).
  assert (H2 : 9.999 < dip_100) by reflexivity.
  split; [exact H1 | split; [exact H2 |]].
  exact (proj1 (proj2 (proj1 tier_ladder_closed_above 9.999)) H1 H2).
Defined.

(** ** Rounding *)

Lemma round_half_even_near (q : Q) :
  Qabs (inject_Z (round_half_even q) - q) <= 1 # 2.
Proof.
  unfold round_half_even.
  pose proof (Qfloor_le q) as Hlo.
  pose proof (Qlt_floor q) as Hhi.
  rewrite inject_Z_plus in Hhi.
  change (inject_Z 1) with 1 in Hhi.
  apply Qabs_Qle_condition.
  destruct (Qcompare_spec (q - inject_Z (Qfloor q)) (1 # 2)) as [He|Hl|Hg].
  - destruct (Z.even (Qfloor q)).
    + split; lra.
    + rewrite inject_Z_plus. change (inject_Z 1) with 1. split; lra.
  - split; lra.
  - rewrite inject_Z_plus. change (inject_Z 1) with 1. split; lra.
Qed.

Lemma round2_spec (x : Q) : rounded_to_2_places (round2 x) x.
Proof.
  unfold rounded_to_2_places, round2. split.
  - exists (round_half_even (x * 100)). apply Qred_correct.
  - rewrite Qred_correct.
    pose proof (round_half_even_near (x * 100)) as H.
    apply Qabs_Qle_condition in H. apply Qabs_Qle_condition.
    unfold Qdiv. change (/ 100) with (1 # 100).
    generalize dependent (inject_Z (round_half_even (x * 100))).
    intros n [H1 H2]. split; lra.
Qed.

(** ** The dip percentage *)

Lemma truediv_nonzero (a b : Q) : ~ b == 0 -> truediv a b = Ok (a / b).
Proof.
  intros Hb. unfold truediv.
  destruct (Qeq_bool b 0) eqn:E; [|reflexivity].
  apply Qeq_bool_eq in E. contradiction.
Qed.

Lemma truediv_zero (a b : Q) :
  b == 0 -> truediv a b = Raise (ZeroDivisionError "float division by zero").
Proof.
  intros Hb. unfold truediv. now rewrite (Qeq_eq_bool _ _ Hb).
Qed.

Lemma dip_percent_nonzero (last_close last_dma : Q) :
  ~ last_dma == 0 ->
  dip_percent last_close last_dma
  = Ok ((last_dma - last_close) / last_dma * 100).
Proof.
  intros H. unfold dip_percent. now rewrite truediv_nonzero.
Qed.

Lemma classify_nonzero (name ticker : string) (last_close last_dma : Q) :
  ~ last_dma == 0 ->
  classify name ticker last_close last_dma
  = Ok (make_row name ticker last_close last_dma
          ((last_dma - last_close) / last_dma * 100)).
Proof.
  intros H. unfold classify. now rewrite dip_percent_nonzero.
Qed.

Lemma classify_Ok_inv (name ticker : string) (last_close last_dma : Q) (r : DipRow) :
  classify name ticker last_close last_dma = Ok r ->
  ~ last_dma == 0 /\
  r = make_row name ticker last_close last_dma
        ((last_dma - last_close) / last_dma * 100).
Proof.
  unfold classify, dip_percent, truediv. intros H.
  destruct (Qeq_bool last_dma 0) eqn:E; simpl in H; [discriminate|].
  split; [|congruence].
  intros Hz. apply Qeq_eq_bool in Hz. congruence.
Qed.

Lemma select_action_mono (d1 d2 : Q) :
  d1 <= d2 -> snd (select_action d1) <= snd (select_action d2).
Proof.
  intros Hle.
  destruct (select_action_cases d1) as [[H1 E1]|[[H1 [H1' E1]]|[[H1 [H1' E1]]|[H1 E1]]]];
  destruct (select_action_cases d2) as [[H2 E2]|[[H2 [H2' E2]]|[[H2 [H2' E2]]|[H2 E2]]]];
  rewrite E1, E2; simpl snd;
  try (vm_compute; discriminate);
  exfalso; unfold dip_100, dip_50, dip_25 in *; lra.
Qed.

(** C7. The dip percentage is [(lastMovingAverage - lastClose) /
    lastMovingAverage * 100] whenever the moving average is not zero; a
    close of 90 under an average of 100 gives a dip of 10.0, the action
    "Deploy 100%" (behind its colour mark) and 100.0 to deploy; a close
    of 99 gives a dip of 1.0, "Hold" and 0.0. *)
Theorem dip_percent_formula_and_vectors :
  (forall last_close last_dma : Q,
      ~ last_dma == 0 ->
      exists dip,
        dip_percent last_close last_dma = Ok dip /\
        dip == (last_dma - last_close) / last_dma * 100) /\
  (forall name ticker : string,
      exists dip r,
        dip_percent 90 100 = Ok dip /\ dip == 10 /\
        classify name ticker 90 100 = Ok r /\
        Dip_pct r = 10 /\
        Action r = ("🟢 " ++ "Deploy 100%")%string /\
        Deploy r = 100) /\
  (forall name ticker : string,
      exists dip r,
        dip_percent 99 100 = Ok dip /\ dip == 1 /\
        classify name ticker 99 100 = Ok r /\
        Dip_pct r = 1 /\
        Action r = ("⚪ " ++ "Hold")%string /\
        Deploy r = 0).
Proof.
  split; [|split].
  - intros c m Hm. eexists. split; [now apply dip_percent_nonzero | reflexivity].
  - intros name ticker. eexists. eexists.
    repeat split; try reflexivity.
  - intros name ticker. eexists. eexists.
    repeat split; try reflexivity.
Qed.

Lemma dip_percent_formula_and_vectors_witness :
  ~ 100 == 0 /\
  exists dip, dip_percent 95 100 = Ok dip /\ dip == (100 - 95) / 100 * 100.
Proof.
  assert (H : ~ 100 == 0) by (intro E; discriminate E).
  split; [exact H|].
  exact (proj1 dip_percent_formula_and_vectors 95 100 H).
Defined.

Module Binary64Facts.

Import PrimFloat.

(** The vectors of the specification in binary64: the quotients 0.1,
    0.05 and 0.01 are not exact, their products with 100 are. *)
Lemma binary64_vectors :
  Binary64.dip_percent 90 100 = Ok 10%float /\
  Binary64.dip_percent 95 100 = Ok 5%float /\
  Binary64.dip_percent 99 100 = Ok 1%float /\
  Binary64.select_action 10 = ("🟢 Deploy 100%"%string, 100%float) /\
  Binary64.select_action (9999 / 1000) = ("🟡 Deploy 50%"%string, 50%float) /\
  Binary64.select_action 5 = ("🟠 Deploy 25%"%string, 25%float) /\
  Binary64.select_action 1 = ("⚪ Hold"%string, 0%float).
Proof. repeat split; vm_compute; reflexivity. Qed.

(** The two inputs on which the classifier departs from its
    specification, in binary64. *)
Lemma binary64_departures :
  Binary64.dip_percent 0 0 = Raise (ZeroDivisionError "float division by zero") /\
  Binary64.dip_percent (-90) (-100) = Ok 10%float /\
  Binary64.dip_percent (-110) (-100) = Ok (-10)%float.
Proof. repeat split; vm_compute; reflexivity. Qed.

End Binary64Facts.

(** C6 as worded fails under a negative moving average: there a lower
    close gives a lower dip and a lower fraction. *)
Lemma dip_not_monotone_for_negative_average :
  exists d1 d2 : Q,
    dip_percent (-90) (-100) = Ok d1 /\
    dip_percent (-110) (-100) = Ok d2 /\
    -110 <= -90 /\
    d2 < d1 /\
    deploy_fraction d2 < deploy_fraction d1.
Proof.
  eexists. eexists.
  split; [reflexivity|]. split; [reflexivity|].
  split; [unfold Qle; simpl; lia|].
  split; reflexivity.
Qed.

Lemma deploy_fraction_values (dip : Q) :
  deploy_fraction dip == 1 \/ deploy_fraction dip == 1 # 2 \/
  deploy_fraction dip == 1 # 4 \/ deploy_fraction dip == 0.
Proof.
  unfold deploy_fraction.
  destruct (select_action_cases dip) as [[_ E]|[[_ [_ E]]|[[_ [_ E]]|[_ E]]]];
    rewrite E; simpl snd.
  - left; reflexivity.
  - right; left; reflexivity.
  - right; right; left; reflexivity.
  - right; right; right; reflexivity.
Qed.

Lemma dip_formula_mono (m c1 c2 : Q) :
  0 < m -> c2 <= c1 ->
  (m - c1) / m * 100 <= (m - c2) / m * 100.
Proof.
  intros Hm Hc.
  apply Qmult_le_compat_r; [|discriminate].
  unfold Qdiv. apply Qmult_le_compat_r.
  - lra.
  - apply Qlt_le_weak, Qinv_lt_0_compat, Hm.
Qed.

(** C6, amended. For a fixed positive moving average, lowering the last
    close never lowers the dip percentage nor the deployed fraction, and
    that fraction is one of 1, 1/2, 1/4, 0. *)
Theorem classifier_monotone_positive_average (last_dma c1 c2 : Q) :
  0 < last_dma -> c2 <= c1 ->
  exists d1 d2 : Q,
    dip_percent c1 last_dma = Ok d1 /\
    dip_percent c2 last_dma = Ok d2 /\
    d1 <= d2 /\
    deploy_fraction d1 <= deploy_fraction d2 /\
    (deploy_fraction d2 == 1 \/ deploy_fraction d2 == 1 # 2 \/
     deploy_fraction d2 == 1 # 4 \/ deploy_fraction d2 == 0).
Proof.
  intros Hm Hc.
  assert (Hnz : ~ last_dma == 0) by (intro E; rewrite E in Hm; discriminate Hm).
  exists ((last_dma - c1) / last_dma * 100), ((last_dma - c2) / last_dma * 100).
  split; [now apply dip_percent_nonzero|].
  split; [now apply dip_percent_nonzero|].
  pose proof (dip_formula_mono last_dma c1 c2 Hm Hc) as Hd.
  split; [exact Hd|].
  split; [|apply deploy_fraction_values].
  unfold deploy_fraction, Qdiv.
  apply Qmult_le_compat_r; [|discriminate].
  now apply select_action_mono.
Qed.

Lemma classifier_monotone_positive_average_witness :
  0 < 100 /\ 90 <= 95 /\
  exists d1 d2 : Q,
    dip_percent 95 100 = Ok d1 /\
    dip_percent 90 100 = Ok d2 /\
    d1 <= d2 /\
    deploy_fraction d1 <= deploy_fraction d2 /\
    (deploy_fraction d2 == 1 \/ deploy_fraction d2 == 1 # 2 \/
     deploy_fraction d2 == 1 # 4 \/ deploy_fraction d2 == 0).
Proof.
  assert (H1 : 0 < 100) by reflexivity.
  assert (H2 : 90 <= 95) by (unfold Qle; simpl; lia).
  split; [exact H1 | split; [exact H2 |]].
  exact (classifier_monotone_positive_average 100 95 90 H1 H2).
Defined.

(** * Properties of the batch *)

Section BatchFacts.

Variable download : string -> result (option DataFrame).

Lemma get_dip_loop_collect (items : list (string * string)) :
  forall acc : list DipRow,
    get_dip_loop download items acc
    = rows <- collect download items ;; Ok (acc ++ rows).
Proof.
  induction items as [|[name ticker] rest IH]; intros acc; simpl.
  - now rewrite app_nil_r.
  - destruct (get_dip_body download name ticker) as [[r|]|e]; simpl.
    + rewrite IH. destruct (collect download rest); simpl; [|reflexivity].
      now rewrite <- app_assoc.
    + rewrite IH. now destruct (collect download rest).
    + reflexivity.
Qed.

Lemma get_dip_collect :
  get_dip download = rows <- collect download index_options ;; respond rows.
Proof.
  unfold get_dip. rewrite get_dip_loop_collect.
  now destruct (collect download index_options).
Qed.

Lemma body_of_failing (name ticker : string) :
  instrument_fails download ticker = true ->
  get_dip_body download name ticker = Ok None.
Proof.
  unfold instrument_fails, get_dip_body.
  destruct (download ticker) as [data|e]; [|reflexivity].
  destruct (none_or_empty data); [reflexivity|]. simpl.
  destruct (_get_last_close_and_dma data) as [[c m]|e];
    [discriminate | reflexivity].
Qed.

Lemma body_of_surviving (name ticker : string) :
  instrument_fails download ticker = false ->
  exists data last_close last_dma,
    download ticker = Ok data /\
    none_or_empty data = false /\
    _get_last_close_and_dma data = Ok (last_close, last_dma) /\
    get_dip_body download name ticker
    = r <- classify name ticker last_close last_dma ;; Ok (Some r).
Proof.
  unfold instrument_fails, get_dip_body.
  destruct (download ticker) as [data|e]; [|discriminate].
  destruct (none_or_empty data) eqn:E; [discriminate|]. simpl.
  destruct (_get_last_close_and_dma data) as [[c m]|e] eqn:X; [|discriminate].
  intros _. exists data, c, m. repeat split; assumption || reflexivity.
Qed.

Lemma body_emits_inv (name ticker : string) (r : DipRow) :
  get_dip_body download name ticker = Ok (Some r) ->
  instrument_fails download ticker = false /\
  exists data last_close last_dma,
    download ticker = Ok data /\
    _get_last_close_and_dma data = Ok (last_close, last_dma) /\
    classify name ticker last_close last_dma = Ok r.
Proof.
  intros H.
  destruct (instrument_fails download ticker) eqn:F.
  - rewrite (body_of_failing _ _ F) in H. discriminate.
  - split; [reflexivity|].
    destruct (body_of_surviving name ticker F) as (data & c & m & Hd & _ & He & Hb).
    exists data, c, m. repeat split; try assumption.
    rewrite Hb in H.
    destruct (classify name ticker c m); simpl in H; congruence.
Qed.

Lemma collect_rows_origin (items : list (string * string)) :
  forall rows,
    collect download items = Ok rows ->
    Forall (fun r => exists name ticker,
                In (name, ticker) items /\
                get_dip_body download name ticker = Ok (Some r)) rows.
Proof.
  induction items as [|[name ticker] rest IH]; intros rows H; simpl in H.
  - injection H as <-. constructor.
  - destruct (get_dip_body download name ticker) as [o|e] eqn:B;
      simpl in H; [|discriminate].
    destruct (collect download rest) as [rows'|e]; simpl in H; [|discriminate].
    assert (Hrest : Forall (fun r => exists name0 ticker0,
                In (name0, ticker0) ((name, ticker) :: rest) /\
                get_dip_body download name0 ticker0 = Ok (Some r)) rows').
    { eapply Forall_impl; [|apply IH; reflexivity].
      intros r (n & t & Hin & Hb). exists n, t. split; [now right | exact Hb]. }
    destruct o as [r|]; injection H as <-; [|exact Hrest].
    constructor; [|exact Hrest].
    exists name, ticker. split; [now left | exact B].
Qed.

Lemma collect_without_raise (items : list (string * string)) :
  (forall name ticker,
      In (name, ticker) (surviving download items) ->
      exists r, get_dip_body download name ticker = Ok (Some r)) ->
  exists rows,
    collect download items = Ok rows /\
    Forall2 (fun it r => get_dip_body download (fst it) (snd it) = Ok (Some r))
            (surviving download items) rows.
Proof.
  induction items as [|[name ticker] rest IH]; intros H; simpl.
  - exists []. split; [reflexivity | constructor].
  - unfold surviving in *. simpl in H |- *.
    destruct (instrument_fails download ticker) eqn:F; simpl in H |- *.
    + destruct (IH H) as (rows & Hc & Hf).
      exists rows. rewrite (body_of_failing _ _ F). simpl.
      rewrite Hc. simpl. now split.
    + destruct (H name ticker (or_introl eq_refl)) as (r & Hr).
      destruct IH as (rows & Hc & Hf).
      { intros n t Hin. apply H. now right. }
      exists (r :: rows). rewrite Hr. simpl. rewrite Hc. simpl.
      split; [reflexivity|]. constructor; [exact Hr | exact Hf].
Qed.

Lemma collect_all_failing (items : list (string * string)) :
  (forall name ticker,
      In (name, ticker) items -> instrument_fails download ticker = true) ->
  collect download items = Ok [].
Proof.
  induction items as [|[name ticker] rest IH]; intros H; simpl; [reflexivity|].
  rewrite (body_of_failing name ticker (H name ticker (or_introl eq_refl))).
  simpl. rewrite IH; [reflexivity|].
  intros n t Hin. apply (H n t). now right.
Qed.

Lemma get_dip_rows_origin (rows : list DipRow) :
  get_dip download = Ok rows ->
  Forall (fun r => exists name ticker,
              In (name, ticker) index_options /\
              get_dip_body download name ticker = Ok (Some r)) rows.
Proof.
  rewrite get_dip_collect. intros H.
  destruct (collect download index_options) as [rows'|e] eqn:C;
    simpl in H; [|discriminate].
  destruct rows' as [|r rows']; simpl in H; [discriminate|].
  injection H as <-. now apply collect_rows_origin.
Qed.

End BatchFacts.

Lemma make_row_labels (name ticker : string) (c m dip : Q) :
  Index (make_row name ticker c m dip) = name /\
  Ticker (make_row name ticker c m dip) = ticker.
Proof. unfold make_row. now destruct (select_action dip). Qed.

Lemma make_row_fields (name ticker : string) (c m dip : Q) :
  Current_Price (make_row name ticker c m dip) = round2 c /\
  DMA_200 (make_row name ticker c m dip) = round2 m /\
  Dip_pct (make_row name ticker c m dip) = round2 dip /\
  Action (make_row name ticker c m dip) = fst (select_action dip) /\
  Deploy (make_row name ticker c m dip) = round2 (snd (select_action dip)).
Proof. unfold make_row. now destruct (select_action dip). Qed.

Lemma body_emits_labels (download : string -> result (option DataFrame))
  (name ticker : string) (r : DipRow) :
  get_dip_body download name ticker = Ok (Some r) ->
  Index r = name /\ Ticker r = ticker.
Proof.
  intros H. apply body_emits_inv in H as (_ & data & c & m & _ & _ & Hc).
  apply classify_Ok_inv in Hc as (_ & ->). apply make_row_labels.
Qed.

Lemma get_dip_when_classified (download : string -> result (option DataFrame)) :
  (forall name ticker,
      In (name, ticker) (surviving download index_options) ->
      exists r, get_dip_body download name ticker = Ok (Some r)) ->
  exists rows,
    get_dip download = respond rows /\
    map (fun r => (Index r, Ticker r)) rows = surviving download index_options /\
    Forall2 (fun it r => get_dip_body download (fst it) (snd it) = Ok (Some r))
            (surviving download index_options) rows.
Proof.
  intros H.
  destruct (collect_without_raise download index_options H) as (rows & Hc & Hf).
  exists rows. rewrite get_dip_collect, Hc. split; [reflexivity|].
  split; [|exact Hf].
  clear Hc H. induction Hf as [|[n t] r its rows Hb _ IH]; [reflexivity|].
  simpl in *. apply body_emits_labels in Hb as [-> ->]. now rewrite IH.
Qed.

(** C5 as worded fails: a series of 200 zero closes is extracted, with a
    moving average of zero, and dividing by it raises
    [ZeroDivisionError], which nothing in [get_dip] absorbs. *)
Lemma zero_average_raises :
  exists last_close last_dma : Q,
    _get_last_close_and_dma (Some zero_series) = Ok (last_close, last_dma) /\
    classify "S&P 500" "^GSPC" last_close last_dma
    = Raise (ZeroDivisionError "float division by zero") /\
    get_dip (fun _ => Ok (Some zero_series))
    = Raise (ZeroDivisionError "float division by zero").
Proof.
  eexists. eexists.
  split; [vm_compute; reflexivity|].
  split; vm_compute; reflexivity.
Qed.

(** C5, amended. Classification completes for every extracted point
    whose moving average is not zero; and a batch in which no extracted
    moving average is zero raises nothing but, when no instrument is
    left, the single "No results available" error. *)
Theorem classification_completes_nonzero_average :
  (forall (name ticker : string) (last_close last_dma : Q),
      ~ last_dma == 0 ->
      exists r, classify name ticker last_close last_dma = Ok r) /\
  (forall download : string -> result (option DataFrame),
      (forall name ticker data last_close last_dma,
          In (name, ticker) index_options ->
          download ticker = Ok data ->
          _get_last_close_and_dma data = Ok (last_close, last_dma) ->
          ~ last_dma == 0) ->
      (exists rows, get_dip download = Ok rows) \/
      get_dip download = Raise no_results).
Proof.
  split.
  - intros name ticker c m Hm. eexists. now apply classify_nonzero.
  - intros download H.
    destruct (get_dip_when_classified download) as (rows & Hg & _).
    + intros name ticker Hin.
      apply filter_In in Hin as [Hin F]. simpl in F.
      apply negb_true_iff in F.
      destruct (body_of_surviving download name ticker F)
        as (data & c & m & Hd & _ & He & Hb).
      rewrite Hb, (classify_nonzero name ticker c m (H _ _ _ _ _ Hin Hd He)).
      simpl. eexists. reflexivity.
    + rewrite Hg. destruct rows; [now right | left; eexists; reflexivity].
Qed.

Lemma two_down_averages_nonzero :
  forall name ticker data last_close last_dma,
    In (name, ticker) index_options ->
    two_down ticker = Ok data ->
    _get_last_close_and_dma data = Ok (last_close, last_dma) ->
    ~ last_dma == 0.
Proof.
  intros name ticker data c m Hin Hd He.
  simpl in Hin.
  destruct Hin as [E|[E|[E|[E|[E|[E|[]]]]]]]; injection E as <- <-;
    vm_compute in Hd; try discriminate Hd; injection Hd as <-;
    vm_compute in He; try discriminate He; injection He as <- <-;
    intro Z; discriminate Z.
Qed.

Lemma classification_completes_nonzero_average_witness :
  (exists r, classify "NASDAQ" "^IXIC" 90 100 = Ok r) /\
  ((exists rows, get_dip two_down = Ok rows) \/
   get_dip two_down = Raise no_results).
Proof.
  split.
  - apply (proj1 classification_completes_nonzero_average).
    intro Z; discriminate Z.
  - apply (proj2 classification_completes_nonzero_average).
    exact two_down_averages_nonzero.
Defined.

Lemma get_dip_Ok_nonempty (download : string -> result (option DataFrame))
  (rows : list DipRow) :
  get_dip download = Ok rows -> rows <> [].
Proof.
  rewrite get_dip_collect. intros H.
  destruct (collect download index_options) as [rows'|e]; cbn [bind] in H;
    [|discriminate].
  destruct rows'; simpl in H; [discriminate|].
  injection H as <-. discriminate.
Qed.

(** C4 as worded fails: on [one_zero] no download fails, no frame is
    empty and no extraction fails, five instruments have their rows, and
    [get_dip] answers with no list at all but with the
    [ZeroDivisionError] of the sixth. *)
Lemma zero_average_loses_the_batch :
  surviving one_zero index_options = index_options /\
  (exists r, get_dip_body one_zero "S&P 500" "^GSPC" = Ok (Some r)) /\
  (exists r, get_dip_body one_zero "BTC" "BTC-USD" = Ok (Some r)) /\
  get_dip one_zero = Raise (ZeroDivisionError "float division by zero").
Proof.
  split; [vm_compute; reflexivity|].
  split; [eexists; vm_compute; reflexivity|].
  split; [eexists; vm_compute; reflexivity|].
  vm_compute. reflexivity.
Qed.

(** C4, amended. The batch drops, without a trace, every instrument
    whose download raises or gives no rows or whose extraction raises:
    such a turn of the loop leaves the list as it was.  When all the
    configured instruments are dropped the endpoint raises the single
    "No results available" error.  When no extracted moving average is
    zero, the answer is the list of the rows of the instruments that are
    left, one per instrument, each the classification of what was
    extracted for it, in the order of the configuration. *)
Theorem batch_absorbs_failures (download : string -> result (option DataFrame)) :
  (forall name ticker rest acc,
      instrument_fails download ticker = true ->
      get_dip_loop download ((name, ticker) :: rest) acc
      = get_dip_loop download rest acc) /\
  ((forall name ticker,
       In (name, ticker) index_options ->
       instrument_fails download ticker = true) ->
   get_dip download = Raise no_results) /\
  ((forall name ticker data last_close last_dma,
       In (name, ticker) index_options ->
       download ticker = Ok data ->
       _get_last_close_and_dma data = Ok (last_close, last_dma) ->
       ~ last_dma == 0) ->
   exists rows,
     get_dip download = respond rows /\
     map (fun r => (Index r, Ticker r)) rows = surviving download index_options /\
     Forall2 (fun it r =>
                exists data last_close last_dma,
                  download (snd it) = Ok data /\
                  _get_last_close_and_dma data = Ok (last_close, last_dma) /\
                  classify (fst it) (snd it) last_close last_dma = Ok r)
             (surviving download index_options) rows).
Proof.
  split; [|split].
  - intros name ticker rest acc F. simpl.
    now rewrite (body_of_failing download name ticker F).
  - intros H. rewrite get_dip_collect.
    now rewrite (collect_all_failing download index_options H).
  - intros H.
    destruct (get_dip_when_classified download) as (rows & Hg & Hl & Hf).
    + intros name ticker Hin.
      apply filter_In in Hin as [Hin F]. simpl in F.
      apply negb_true_iff in F.
      destruct (body_of_surviving download name ticker F)
        as (data & c & m & Hd & _ & He & Hb).
      rewrite Hb, (classify_nonzero name ticker c m (H _ _ _ _ _ Hin Hd He)).
      simpl. eexists. reflexivity.
    + exists rows. split; [exact Hg|]. split; [exact Hl|].
      eapply Forall2_impl; [|exact Hf].
      intros [name ticker] r Hb. simpl in *.
      apply body_emits_inv in Hb as (_ & data & c & m & Hd & He & Hc).
      now exists data, c, m.
Qed.

Lemma batch_absorbs_failures_witness :
  (exists rows,
      get_dip two_down = Ok rows /\
      map (fun r => (Index r, Ticker r)) rows
      = [ ("S&P 500", "^GSPC"); ("Nifty Midcap 150", "0P0001IAU9.BO");
          ("Nifty Smallcap 250", "0P0001Q0UH.BO"); ("NASDAQ", "^IXIC") ]%string /\
      List.length rows = 4%nat) /\
  get_dip (fun _ => Raise (ValueError "download failed")) = Raise no_results.
Proof.
  assert (S : surviving two_down index_options
              = [ ("S&P 500", "^GSPC"); ("Nifty Midcap 150", "0P0001IAU9.BO");
                  ("Nifty Smallcap 250", "0P0001Q0UH.BO"); ("NASDAQ", "^IXIC") ]%string)
    by (vm_compute; reflexivity).
  split.
  - destruct (proj2 (proj2 (batch_absorbs_failures two_down))
                two_down_averages_nonzero) as (rows & Hg & Hm & _).
    rewrite S in Hm. exists rows.
    split; [|split; [exact Hm|]].
    + rewrite Hg. destruct rows; [discriminate Hm | reflexivity].
    + now rewrite <- (length_map (fun r => (Index r, Ticker r))), Hm.
  - apply (proj1 (proj2 (batch_absorbs_failures
                           (fun _ => Raise (ValueError "download failed"))))).
    intros name ticker _. reflexivity.
Defined.

Lemma make_row_deploy (name ticker : string) (c m dip : Q) :
  let r := make_row name ticker c m dip in
  (Deploy r = 100 /\ Action r = "🟢 Deploy 100%"%string) \/
  (Deploy r = 50 /\ Action r = "🟡 Deploy 50%"%string) \/
  (Deploy r = 25 /\ Action r = "🟠 Deploy 25%"%string) \/
  (Deploy r = 0 /\ Action r = "⚪ Hold"%string).
Proof.
  unfold make_row.
  destruct (select_action_cases dip) as [[_ E]|[[_ [_ E]]|[[_ [_ E]]|[_ E]]]];
    rewrite E; simpl.
  - left. split; reflexivity.
  - right; left. split; reflexivity.
  - right; right; left. split; reflexivity.
  - right; right; right. split; reflexivity.
Qed.

(** C8. Every answer of the batch has rows, and in every row the
    price, the moving average, the dip and the amount to deploy are the
    extracted and computed numbers rounded to two decimal places, while
    the action and the amount come from the ladder applied to the dip
    before rounding; a dip of 9.999 is shown as 10.0 and still deploys
    50%. *)
Theorem outputs_rounded_comparisons_unrounded :
  (forall (download : string -> result (option DataFrame)) (rows : list DipRow),
      get_dip download = Ok rows ->
      rows <> [] /\
      Forall (fun r =>
                exists data last_close last_dma dip,
                  download (Ticker r) = Ok data /\
                  _get_last_close_and_dma data = Ok (last_close, last_dma) /\
                  dip_percent last_close last_dma = Ok dip /\
                  rounded_to_2_places (Current_Price r) last_close /\
                  rounded_to_2_places (DMA_200 r) last_dma /\
                  rounded_to_2_places (Dip_pct r) dip /\
                  rounded_to_2_places (Deploy r) (snd (select_action dip)) /\
                  Action r = fst (select_action dip)) rows) /\
  (exists r dip,
      classify "S&P 500" "^GSPC" 90.001 100 = Ok r /\
      dip_percent 90.001 100 = Ok dip /\
      dip == 9.999 /\
      Dip_pct r = 10 /\
      Action r = "🟡 Deploy 50%"%string /\
      fst (select_action (Dip_pct r)) = "🟢 Deploy 100%"%string).
Proof.
  split.
  - intros download rows H. split; [exact (get_dip_Ok_nonempty download rows H)|].
    eapply Forall_impl; [|apply (get_dip_rows_origin download rows H)].
    intros r (name & ticker & _ & Hb).
    destruct (body_emits_labels download name ticker r Hb) as [_ Ht].
    apply body_emits_inv in Hb as (_ & data & c & m & Hd & He & Hc).
    apply classify_Ok_inv in Hc as (Hm & ->).
    exists data, c, m, ((m - c) / m * 100).
    destruct (make_row_fields name ticker c m ((m - c) / m * 100))
      as (-> & -> & -> & -> & ->).
    rewrite Ht. split; [exact Hd|]. split; [exact He|].
    split; [now apply dip_percent_nonzero|].
    repeat split; try apply round2_spec.
  - eexists. eexists.
    split; [reflexivity|]. split; [reflexivity|].
    repeat split.
Qed.

Lemma outputs_rounded_comparisons_unrounded_witness :
  match get_dip two_down with
  | Ok rows =>
      List.length rows = 4%nat /\
      rows <> [] /\
      Forall (fun r =>
                exists data last_close last_dma dip,
                  two_down (Ticker r) = Ok data /\
                  _get_last_close_and_dma data = Ok (last_close, last_dma) /\
                  dip_percent last_close last_dma = Ok dip /\
                  rounded_to_2_places (Current_Price r) last_close /\
                  rounded_to_2_places (DMA_200 r) last_dma /\
                  rounded_to_2_places (Dip_pct r) dip /\
                  rounded_to_2_places (Deploy r) (snd (select_action dip)) /\
                  Action r = fst (select_action dip)) rows
  | Raise _ => False
  end.
Proof.
  pose proof (proj1 outputs_rounded_comparisons_unrounded two_down) as H.
  destruct (get_dip two_down) as [rows|e] eqn:E.
  - split; [|apply H; reflexivity].
    vm_compute in E. injection E as <-. reflexivity.
  - vm_compute in E. discriminate E.
Defined.

(** C10. Every row the batch answers with deploys exactly 100, 50, 25 or
    0, next to the action of that tier, and so never more than the fixed
    amount of 100. *)
Theorem deploy_amount_is_a_tier_amount
  (download : string -> result (option DataFrame)) (rows : list DipRow) :
  get_dip download = Ok rows ->
  Forall (fun r =>
            ((Deploy r = 100 /\ Action r = "🟢 Deploy 100%"%string) \/
             (Deploy r = 50 /\ Action r = "🟡 Deploy 50%"%string) \/
             (Deploy r = 25 /\ Action r = "🟠 Deploy 25%"%string) \/
             (Deploy r = 0 /\ Action r = "⚪ Hold"%string)) /\
            Deploy r <= amount) rows.
Proof.
  intros H.
  eapply Forall_impl; [|apply (get_dip_rows_origin download rows H)].
  intros r (name & ticker & _ & Hb).
  apply body_emits_inv in Hb as (_ & data & c & m & _ & _ & Hc).
  apply classify_Ok_inv in Hc as (Hm & ->).
  pose proof (make_row_deploy name ticker c m ((m - c) / m * 100)) as D.
  cbv zeta in D. split; [exact D|].
  destruct D as [[-> _]|[[-> _]|[[-> _]|[-> _]]]]; vm_compute; discriminate.
Qed.

Lemma deploy_amount_is_a_tier_amount_witness :
  match get_dip two_down with
  | Ok rows =>
      rows <> [] /\
      Forall (fun r =>
                ((Deploy r = 100 /\ Action r = "🟢 Deploy 100%"%string) \/
                 (Deploy r = 50 /\ Action r = "🟡 Deploy 50%"%string) \/
                 (Deploy r = 25 /\ Action r = "🟠 Deploy 25%"%string) \/
                 (Deploy r = 0 /\ Action r = "⚪ Hold"%string)) /\
                Deploy r <= amount) rows
  | Raise _ => False
  end.
Proof.
  pose proof (deploy_amount_is_a_tier_amount two_down) as H.
  destruct (get_dip two_down) as [rows|e] eqn:E.
  - split; [|apply H; reflexivity].
    intros ->. vm_compute in E. discriminate E.
  - vm_compute in E. discriminate E.
Defined.

(** * Properties of the extractor *)

(** ** Lists of cells *)

Section Filtering.

Context {A : Type} (P : A -> bool).

Lemma filter_nil_Forall (l : list A) :
  filter P l = [] <-> Forall (fun x => P x = false) l.
Proof.
  induction l as [|x l IH]; simpl.
  - split; [constructor | reflexivity].
  - destruct (P x) eqn:E; split; intros H.
    + discriminate.
    + inversion H; congruence.
    + constructor; [exact E | now apply IH].
    + inversion H; now apply IH.
Qed.

(** A list either has no element that passes the filter or splits at
    the last one that does. *)
Lemma filter_last_split (l : list A) :
  filter P l = [] \/
  exists before x after,
    l = before ++ x :: after /\
    P x = true /\
    Forall (fun y => P y = false) after /\
    filter P l = filter P before ++ [x].
Proof.
  induction l as [|a l IH]; [now left|].
  destruct IH as [Hnil|(before & x & after & -> & Hx & Ha & Hf)].
  - simpl. destruct (P a) eqn:E.
    + right. exists [], a, l. rewrite Hnil.
      repeat split; [exact E | now apply filter_nil_Forall].
    + now left.
  - right. exists (a :: before), x, after.
    repeat split; [exact Hx | exact Ha |].
    simpl. rewrite Hf. now destruct (P a).
Qed.

Lemma filter_split_last (before after : list A) (x : A) :
  P x = true ->
  Forall (fun y => P y = false) after ->
  filter P (before ++ x :: after) = filter P before ++ [x].
Proof.
  intros Hx Ha. rewrite filter_app. simpl. rewrite Hx.
  now rewrite (proj2 (filter_nil_Forall after) Ha).
Qed.

End Filtering.

Lemma rev_snoc_head {A : Type} (l : list A) (x : A) : rev (l ++ [x]) = x :: rev l.
Proof. now rewrite rev_app_distr. Qed.

Lemma existsb_notna_false (r : row) :
  existsb notna r = false -> forall j, nth j r None = None.
Proof.
  induction r as [|[v|] r IH]; simpl; intros H j.
  - now destruct j.
  - discriminate.
  - destruct j; [reflexivity | now apply IH].
Qed.



Lemma first_notna_inv (r : row) (v : Q) :
  first_notna r = Some v -> exists j, first_value r j v.
Proof.
  induction r as [|[x|] r IH]; simpl; intros H.
  - discriminate.
  - exists 0%nat. split; [exact H | intros j' Hj'; lia].
  - destruct (IH H) as (j & Hj & Hlt). exists (S j). split; [exact Hj|].
    intros [|j'] Hj'; [reflexivity | apply Hlt; lia].
Qed.

Lemma iloc_last_of_last_valued (df : DataFrame) (i : nat) (r : row) :
  last_valued_row (values df) i r -> iloc_last (dropna_all df) = Ok r.
Proof.
  intros (before & after & Ht & _ & Hr & Ha).
  unfold iloc_last, dropna_all. cbn [values]. rewrite Ht.
  now rewrite (filter_split_last (existsb notna) before after r Hr Ha), rev_snoc_head.
Qed.

Lemma iloc_last_inv (df : DataFrame) (r : row) :
  iloc_last (dropna_all df) = Ok r ->
  exists i, last_valued_row (values df) i r.
Proof.
  unfold iloc_last, dropna_all. cbn [values]. intros H.
  destruct (filter_last_split (existsb notna) (values df))
    as [Hnil|(before & x & after & Ht & Hx & Ha & Hf)].
  - rewrite Hnil in H. discriminate.
  - rewrite Hf, rev_snoc_head in H. injection H as <-.
    exists (List.length before), before, after. now repeat split.
Qed.

Lemma iloc_last_raises (df : DataFrame) :
  filter (existsb notna) (values df) = [] ->
  iloc_last (dropna_all df)
  = Raise (IndexError "single positional indexer is out-of-bounds").
Proof. unfold iloc_last, dropna_all. cbn [values]. now intros ->. Qed.

(** ** Windows and the rolling mean *)


Lemma all_present_inv (l : list cell) (vs : list Q) :
  all_present l = Some vs -> l = map Some vs.
Proof.
  revert vs. induction l as [|[v|] l IH]; simpl; intros vs H.
  - now injection H as <-.
  - destruct (all_present l) as [vs'|]; [|discriminate].
    injection H as <-. simpl. now rewrite (IH vs').
  - discriminate.
Qed.

Lemma all_present_In_None (l : list cell) : In None l -> all_present l = None.
Proof.
  induction l as [|[v|] l IH]; simpl; intros H.
  - contradiction.
  - destruct H as [H|H]; [discriminate|]. now rewrite IH.
  - reflexivity.
Qed.

Lemma window_length (w : nat) (xs : list cell) (i : nat) :
  (w <= S i)%nat -> (i < List.length xs)%nat ->
  List.length (window w xs i) = w.
Proof.
  intros Hw Hi. unfold window. rewrite length_firstn, length_skipn. lia.
Qed.

Lemma window_last (w : nat) (xs : list cell) (i : nat) :
  (1 <= w)%nat -> (w <= S i)%nat ->
  nth (w - 1) (window w xs i) None = nth i xs None.
Proof.
  intros H1 Hw. unfold window.
  rewrite nth_firstn.
  destruct (w - 1 <? w)%nat eqn:E.
  - rewrite nth_skipn. f_equal. lia.
  - apply Nat.ltb_ge in E. lia.
Qed.

Lemma window_In_last (w : nat) (xs : list cell) (i : nat) :
  (1 <= w)%nat -> (w <= S i)%nat -> (i < List.length xs)%nat ->
  In (nth i xs None) (window w xs i).
Proof.
  intros H1 Hw Hi. rewrite <- (window_last w xs i H1 Hw).
  apply nth_In. rewrite window_length; lia.
Qed.

Lemma rolling_missing_at (w : nat) (xs : list cell) (i : nat) :
  (1 <= w)%nat -> (i < List.length xs)%nat ->
  nth i xs None = None -> rolling_mean_at w xs i = None.
Proof.
  intros H1 Hi Hn. unfold rolling_mean_at.
  destruct (w <=? S i)%nat eqn:E; [|reflexivity].
  apply Nat.leb_le in E.
  rewrite all_present_In_None; [reflexivity|].
  rewrite <- Hn. now apply window_In_last.
Qed.


Lemma non_missing_app (l1 l2 : list cell) :
  non_missing (l1 ++ l2) = (non_missing l1 + non_missing l2)%nat.
Proof. unfold non_missing. now rewrite filter_app, length_app. Qed.

Lemma non_missing_map_Some (vs : list Q) :
  non_missing (map Some vs) = List.length vs.
Proof.
  unfold non_missing. induction vs as [|v vs IH]; simpl; [reflexivity | now rewrite IH].
Qed.

Lemma non_missing_window (w : nat) (xs : list cell) (i : nat) :
  (non_missing (window w xs i) <= non_missing xs)%nat.
Proof.
  unfold window.
  rewrite <- (firstn_skipn (S i - w) xs) at 2.
  rewrite non_missing_app.
  rewrite <- (firstn_skipn w (skipn (S i - w) xs)) at 2.
  rewrite non_missing_app. lia.
Qed.

(** A moving average exists only where the column holds a full window
    of values. *)
Lemma rolling_value_needs_window (w : nat) (xs : list cell) (i : nat) (m : Q) :
  (i < List.length xs)%nat ->
  rolling_mean_at w xs i = Some m ->
  (w <= non_missing xs)%nat.
Proof.
  intros Hi H. unfold rolling_mean_at in H.
  destruct (w <=? S i)%nat eqn:E; [|discriminate].
  apply Nat.leb_le in E.
  destruct (all_present (window w xs i)) as [vs|] eqn:P; [|discriminate].
  apply all_present_inv in P.
  pose proof (window_length w xs i E Hi) as L.
  pose proof (non_missing_window w xs i) as W.
  rewrite P, non_missing_map_Some in W.
  rewrite P, length_map in L. lia.
Qed.

(** ** Columns of a table *)

Lemma column_length (j : nat) (t : list row) :
  List.length (column j t) = List.length t.
Proof. apply length_map. Qed.

Lemma column_nth (j : nat) (t : list row) (i : nat) :
  nth i (column j t) None = nth j (nth i t []) None.
Proof.
  revert i. induction t as [|r t IH]; intros [|i]; simpl;
    try reflexivity; try (now destruct j); apply IH.
Qed.

Lemma non_missing_nth (r : row) (j : nat) :
  notna (nth j r None) = true -> (1 <= non_missing r)%nat.
Proof.
  revert j. induction r as [|v r IH]; intros [|j] H; simpl in H; try discriminate.
  - unfold non_missing. simpl. rewrite H. simpl. lia.
  - change (v :: r) with ([v] ++ r). rewrite non_missing_app.
    specialize (IH j H). lia.
Qed.

Lemma non_missing_column (j : nat) (t : list row) :
  (non_missing (column j t) <= non_missing (List.concat t))%nat.
Proof.
  induction t as [|r t IH]; simpl; [lia|].
  rewrite non_missing_app.
  change (nth j r None :: column j t) with ([nth j r None] ++ column j t).
  rewrite non_missing_app.
  enough (non_missing [nth j r None] <= non_missing r)%nat by lia.
  unfold non_missing at 1. simpl.
  destruct (notna (nth j r None)) eqn:E; simpl; [|lia].
  now apply (non_missing_nth r j).
Qed.

Lemma nth_map_seq {A : Type} (f : nat -> A) (k j : nat) (d : A) :
  (j < k)%nat -> nth j (map f (seq 0 k)) d = f j.
Proof.
  intros H. rewrite (nth_indep _ d (f 0%nat)) by (now rewrite length_map, length_seq).
  now rewrite map_nth, seq_nth.
Qed.

Lemma nth_map_seq_default {A : Type} (f : nat -> A) (k j : nat) (d : A) :
  (k <= j)%nat -> nth j (map f (seq 0 k)) d = d.
Proof.
  intros H. apply nth_overflow. now rewrite length_map, length_seq.
Qed.

(** ** The frame of closing prices *)



Lemma has_column_filter (key : string) (df : DataFrame) :
  has_column key df = true <-> filter (String.eqb key) (columns df) <> [].
Proof.
  unfold has_column. induction (columns df) as [|l ls IH]; simpl.
  - split; [discriminate | congruence].
  - destruct (String.eqb key l); simpl; [|exact IH].
    split; [discriminate | reflexivity].
Qed.

(** ** The extractor *)

Lemma dma_table_rows (df : DataFrame) :
  dma_table df
  = map (fun i =>
           map (fun j => rolling_mean_at 200 (column j (close_table df)) i)
               (seq 0 (List.length (columns (getitem "Close" df)))))
        (seq 0 (List.length (close_table df))).
Proof. reflexivity. Qed.

Lemma empty_without_rows (df : DataFrame) : values df = [] -> empty df = true.
Proof. unfold empty. intros ->. now destruct (columns df). Qed.

Lemma empty_false_inv (df : DataFrame) :
  empty df = false -> columns df <> [] /\ values df <> [].
Proof.
  unfold empty. destruct (columns df), (values df); try discriminate.
  intros _. split; discriminate.
Qed.

(** The extractor once its two guards are passed. *)
Lemma extract_guarded (df : DataFrame) :
  empty df = false -> has_column "Close" df = true ->
  _get_last_close_and_dma (Some df)
  = (last_close_row <- iloc_last (dropna_all (getitem "Close" df)) ;;
     last_dma_row <-
       (if negb (empty (dropna_all (rolling_mean 200 (getitem "Close" df))))
        then r <- iloc_last (dropna_all (rolling_mean 200 (getitem "Close" df))) ;;
             Ok (Some r)
        else Ok None) ;;
     match first_notna last_close_row,
           match last_dma_row with
           | Some r => first_notna r
           | None => None
           end
     with
     | Some c, Some d => Ok (c, d)
     | _, _ => Raise (ValueError "insufficient data for 200DMA or last close")
     end).
Proof. intros He Hc. unfold _get_last_close_and_dma. now rewrite He, Hc. Qed.

(** Where no column of closes holds 200 values, the table of moving
    averages holds none. *)
Lemma dma_table_all_missing (df : DataFrame) :
  (forall j, (non_missing (column j (close_table df)) < 200)%nat) ->
  filter (existsb notna) (dma_table df) = [].
Proof.
  intros H. apply filter_nil_Forall, Forall_forall. intros r Hr.
  rewrite dma_table_rows in Hr.
  apply in_map_iff in Hr as (i & <- & Hi). apply in_seq in Hi.
  destruct (existsb notna _) eqn:E; [|reflexivity].
  apply existsb_exists in E as (x & Hx & Hn).
  apply in_map_iff in Hx as (j & <- & _).
  destruct (rolling_mean_at 200 (column j (close_table df)) i) as [m|] eqn:R;
    [|discriminate].
  apply rolling_value_needs_window in R; [|rewrite column_length; lia].
  specialize (H j). lia.
Qed.

Lemma extract_raises_per_column (df : DataFrame) :
  (forall j, (non_missing (column j (close_table df)) < 200)%nat) ->
  exists e, _get_last_close_and_dma (Some df) = Raise e /\ InsufficientData e.
Proof.
  intros H.
  destruct (empty df) eqn:He.
  { eexists. unfold _get_last_close_and_dma. rewrite He. now split. }
  destruct (has_column "Close" df) eqn:Hc.
  2:{ eexists. unfold _get_last_close_and_dma. rewrite He, Hc. now split. }
  rewrite (extract_guarded df He Hc).
  destruct (iloc_last (dropna_all (getitem "Close" df))) as [r|e] eqn:L.
  - assert (E : empty (dropna_all (rolling_mean 200 (getitem "Close" df))) = true).
    { apply empty_without_rows. apply (dma_table_all_missing df H). }
    rewrite E. simpl. eexists.
    split; [now destruct (first_notna r) | exact I].
  - unfold iloc_last in L. destruct (rev _); [|discriminate].
    injection L as <-. eexists. now split.
Qed.

(** C2. The extractor raises, and returns no pair, when it is given no
    frame or an empty one, when the frame has no "Close" column, and
    when the frame holds fewer than 200 closing values; what it raises
    is one of its own errors, which the caller absorbs. *)
Theorem extraction_fails_without_window (data : option DataFrame) :
  data = None \/
  (exists df, data = Some df /\
     (empty df = true \/ has_column "Close" df = false \/
      (non_missing_closes df < 200)%nat)) ->
  exists e, _get_last_close_and_dma data = Raise e /\ InsufficientData e.
Proof.
  intros [->|(df & -> & [He|[Hc|Hn]])].
  - eexists. now split.
  - eexists. unfold _get_last_close_and_dma. rewrite He. now split.
  - unfold _get_last_close_and_dma. rewrite Hc.
    destruct (empty df); eexists; now split.
  - apply extract_raises_per_column. intros j.
    pose proof (non_missing_column j (close_table df)) as H.
    unfold non_missing_closes in Hn. lia.
Qed.

Lemma extraction_fails_without_window_witness :
  (non_missing_closes short_series < 200)%nat /\
  exists e, _get_last_close_and_dma (Some short_series) = Raise e /\
            InsufficientData e.
Proof.
  assert (H : (non_missing_closes short_series < 200)%nat)
    by (vm_compute; reflexivity).
  split; [exact H|].
  apply extraction_fails_without_window.
  right. exists short_series. split; [reflexivity|]. right; right. exact H.
Defined.

(** C9. When the extractor returns, the frame was there, the close it
    returns is the first value, in column order, of the last row of
    closes that holds a value, and the average it returns is the first
    value of the last row of moving averages that holds a value: both
    are values of cells, not missing ones. *)
Theorem extracted_values_are_last_present
  (data : option DataFrame) (last_close last_dma : Q) :
  _get_last_close_and_dma data = Ok (last_close, last_dma) ->
  exists df,
    data = Some df /\
    (exists i r j,
        last_valued_row (close_table df) i r /\ first_value r j last_close) /\
    (exists i r j,
        last_valued_row (dma_table df) i r /\ first_value r j last_dma).
Proof.
  intros H. destruct data as [df|]; [|discriminate].
  exists df. split; [reflexivity|].
  destruct (empty df) eqn:He.
  { unfold _get_last_close_and_dma in H. rewrite He in H. discriminate. }
  destruct (has_column "Close" df) eqn:Hc.
  2:{ unfold _get_last_close_and_dma in H. rewrite He, Hc in H. discriminate. }
  rewrite (extract_guarded df He Hc) in H.
  destruct (iloc_last (dropna_all (getitem "Close" df))) as [r|e] eqn:L;
    [|discriminate].
  cbn [bind] in H.
  destruct (empty (dropna_all (rolling_mean 200 (getitem "Close" df)))).
  { cbn [negb bind] in H. destruct (first_notna r); discriminate. }
  cbn [negb] in H.
  destruct (iloc_last (dropna_all (rolling_mean 200 (getitem "Close" df))))
    as [r'|e] eqn:L'; [|discriminate].
  cbn [bind] in H.
  destruct (first_notna r) as [c|] eqn:F; [|discriminate].
  destruct (first_notna r') as [d|] eqn:F'; [|discriminate].
  injection H as <- <-.
  apply iloc_last_inv in L as (i & L). apply iloc_last_inv in L' as (i' & L').
  apply first_notna_inv in F as (j & F). apply first_notna_inv in F' as (j' & F').
  split; [now exists i, r, j | now exists i', r', j'].
Qed.

Lemma extracted_values_are_last_present_witness :
  exists df,
    Some late_close_series = Some df /\
    (exists i r j, last_valued_row (close_table df) i r /\ first_value r j 5) /\
    (exists i r j,
        last_valued_row (dma_table df) i r /\ first_value r j (200 # 200)).
Proof.
  apply (extracted_values_are_last_present (Some late_close_series)).
  vm_compute. reflexivity.
Defined.

(** ** The moving average over a full window *)

Section FullWindow.

Variables (w k i j : nat) (t before after : list row) (r : row).
Variables (c : Q) (vs : list Q).

Hypothesis Hw : (1 <= w)%nat.
Hypothesis Hwi : (w <= S i)%nat.
Hypothesis Ht : t = before ++ r :: after.
Hypothesis Hi : List.length before = i.
Hypothesis Hafter : Forall (fun r' => existsb notna r' = false) after.
Hypothesis Hfirst : first_value r j c.
Hypothesis Hjk : (j < k)%nat.
Hypothesis Hwin : window w (column j t) i = map Some vs.














End FullWindow.


Lemma first_value_in_range (r : row) (j : nat) (v : Q) :
  first_value r j v -> (j < List.length r)%nat.
Proof.
  intros [H _]. destruct (Nat.lt_ge_cases j (List.length r)) as [Hlt|Hge];
    [exact Hlt|].
  rewrite (nth_overflow r None Hge) in H. discriminate.
Qed.


(** * Further properties of the extractor *)

Lemma rolling_value_inv (w : nat) (xs : list cell) (i : nat) (m : Q) :
  rolling_mean_at w xs i = Some m ->
  (w <= S i)%nat /\
  exists vs, window w xs i = map Some vs /\
             m = Qsum vs / inject_Z (Z.of_nat w).
Proof.
  unfold rolling_mean_at. intros H.
  destruct (w <=? S i)%nat eqn:E; [|discriminate].
  apply Nat.leb_le in E. split; [exact E|].
  destruct (all_present (window w xs i)) as [vs|] eqn:P; [|discriminate].
  exists vs. split; [now apply all_present_inv | congruence].
Qed.

Lemma dma_cell (df : DataFrame) (i j : nat) :
  (i < List.length (close_table df))%nat ->
  (j < List.length (columns (getitem "Close" df)))%nat ->
  nth j (nth i (dma_table df) []) None
  = rolling_mean_at 200 (column j (close_table df)) i.
Proof.
  intros Hi Hj. rewrite dma_table_rows.
  rewrite (nth_map_seq _ _ i [] Hi). now rewrite (nth_map_seq _ _ j None Hj).
Qed.

Lemma dma_table_length (df : DataFrame) :
  List.length (dma_table df) = List.length (close_table df).
Proof. rewrite dma_table_rows. now rewrite length_map, length_seq. Qed.

(** A valued cell of the table of moving averages is the mean of a full
    window of closes. *)
Lemma dma_value_inv (df : DataFrame) (r : row) (j : nat) (d : Q) :
  In r (dma_table df) -> nth j r None = Some d ->
  exists i vs,
    nth i (dma_table df) [] = r /\
    full_window (close_table df) i j vs /\
    d = Qsum vs / inject_Z (Z.of_nat 200).
Proof.
  intros Hin Hd. rewrite dma_table_rows in Hin.
  apply in_map_iff in Hin as (i & Hr & Hi). apply in_seq in Hi.
  assert (Hlen : (i < List.length (close_table df))%nat) by lia.
  exists i.
  assert (Hrow : nth i (dma_table df) [] = r).
  { rewrite dma_table_rows, (nth_map_seq _ _ i [] Hlen). exact Hr. }
  subst r.
  destruct (Nat.lt_ge_cases j (List.length (columns (getitem "Close" df))))
    as [Hj|Hj].
  - rewrite (nth_map_seq _ _ j None Hj) in Hd.
    apply rolling_value_inv in Hd as (Hw & vs & Hwin & ->).
    exists vs. repeat split; assumption.
  - rewrite (nth_map_seq_default _ _ j None Hj) in Hd. discriminate.
Qed.

Lemma no_window_no_average (df : DataFrame) :
  (forall i j vs, ~ full_window (close_table df) i j vs) ->
  filter (existsb notna) (dma_table df) = [].
Proof.
  intros H. apply filter_nil_Forall, Forall_forall. intros r Hr.
  destruct (existsb notna r) eqn:E; [|reflexivity].
  apply existsb_exists in E as (x & Hx & Hn).
  apply (In_nth _ _ None) in Hx as (j & _ & Hj).
  destruct x as [d|]; [|discriminate].
  destruct (dma_value_inv df r j d Hr Hj) as (i & vs & _ & Hfw & _).
  now destruct (H i j vs).
Qed.

Lemma valued_row_exists (t : list row) :
  Exists (fun r => existsb notna r = true) t ->
  exists i r, last_valued_row t i r.
Proof.
  intros He.
  destruct (filter_last_split (existsb notna) t)
    as [Hnil|(before & x & after & Ht & Hx & Ha & _)].
  - apply filter_nil_Forall in Hnil. apply Exists_exists in He as (r & Hr & Hv).
    rewrite Forall_forall in Hnil. rewrite (Hnil r Hr) in Hv. discriminate.
  - exists (List.length before), x, before, after. now repeat split.
Qed.

Lemma first_notna_of_valued (r : row) :
  existsb notna r = true -> exists v, first_notna r = Some v.
Proof.
  induction r as [|[x|] r IH]; simpl; intros H.
  - discriminate.
  - now exists x.
  - now apply IH.
Qed.

(** X1. The errors of the extractor, each with its condition: nothing or
    an empty frame gives "no data", whether there is a "Close" column or
    not; a frame with rows and no "Close" column gives "no Close
    column"; closes that are all missing give the [IndexError] of
    [iloc[-1]]; closes of which no 200 consecutive rows of one column are
    all present give "insufficient data". *)
Theorem extractor_error_table (data : option DataFrame) :
  (none_or_empty data = true ->
   _get_last_close_and_dma data = Raise (ValueError "no data")) /\
  (forall df,
      data = Some df -> empty df = false -> has_column "Close" df = false ->
      _get_last_close_and_dma data = Raise (ValueError "no Close column")) /\
  (forall df,
      data = Some df -> empty df = false -> has_column "Close" df = true ->
      no_value (close_table df) ->
      _get_last_close_and_dma data
      = Raise (IndexError "single positional indexer is out-of-bounds")) /\
  (forall df,
      data = Some df -> empty df = false -> has_column "Close" df = true ->
      Exists (fun r => existsb notna r = true) (close_table df) ->
      (forall i j vs, ~ full_window (close_table df) i j vs) ->
      _get_last_close_and_dma data
      = Raise (ValueError "insufficient data for 200DMA or last close")).
Proof.
  split; [|split; [|split]].
  - destruct data as [df|]; simpl; [|reflexivity].
    intros He. unfold _get_last_close_and_dma. now rewrite He.
  - intros df -> He Hc. unfold _get_last_close_and_dma. now rewrite He, Hc.
  - intros df -> He Hc Hn. rewrite (extract_guarded df He Hc).
    rewrite (iloc_last_raises (getitem "Close" df)); [reflexivity|].
    now apply filter_nil_Forall.
  - intros df -> He Hc Hv Hn. rewrite (extract_guarded df He Hc).
    destruct (valued_row_exists _ Hv) as (i & r & LV).
    rewrite (iloc_last_of_last_valued (getitem "Close" df) i r LV). cbn [bind].
    rewrite (empty_without_rows (dropna_all (rolling_mean 200 (getitem "Close" df))))
      by (apply (no_window_no_average df Hn)).
    cbn [negb bind]. now destruct (first_notna r).
Qed.

Lemma extractor_error_table_witness :
  _get_last_close_and_dma (Some (flat_frame []))
  = Raise (ValueError "no data") /\
  _get_last_close_and_dma (Some no_close_frame)
  = Raise (ValueError "no Close column") /\
  _get_last_close_and_dma (Some missing_series)
  = Raise (IndexError "single positional indexer is out-of-bounds") /\
  _get_last_close_and_dma (Some short_series)
  = Raise (ValueError "insufficient data for 200DMA or last close").
Proof.
  split; [|split; [|split]].
  - apply (proj1 (extractor_error_table (Some (flat_frame [])))). reflexivity.
  - apply (proj1 (proj2 (extractor_error_table (Some no_close_frame)))
             no_close_frame); reflexivity.
  - apply (proj1 (proj2 (proj2 (extractor_error_table (Some missing_series))))
             missing_series); try reflexivity.
    unfold no_value. vm_compute. repeat constructor.
  - apply (proj2 (proj2 (proj2 (extractor_error_table (Some short_series))))
             short_series); try reflexivity.
    + apply Exists_exists. exists [Some 3]. split; [now left | reflexivity].
    + intros i j vs (H1 & H2 & _).
      assert (L : List.length (close_table short_series) = 199%nat)
        by (vm_compute; reflexivity).
      rewrite L in H2. lia.
Defined.

Lemma extract_Ok_inv (df : DataFrame) (c d : Q) :
  _get_last_close_and_dma (Some df) = Ok (c, d) ->
  empty df = false /\ has_column "Close" df = true /\
  (exists i r j, last_valued_row (close_table df) i r /\ first_value r j c) /\
  (exists i r j, last_valued_row (dma_table df) i r /\ first_value r j d).
Proof.
  intros H.
  destruct (empty df) eqn:He.
  { unfold _get_last_close_and_dma in H. rewrite He in H. discriminate. }
  destruct (has_column "Close" df) eqn:Hc.
  2:{ unfold _get_last_close_and_dma in H. rewrite He, Hc in H. discriminate. }
  rewrite (extract_guarded df He Hc) in H.
  destruct (iloc_last (dropna_all (getitem "Close" df))) as [r|e] eqn:L;
    [|discriminate].
  cbn [bind] in H.
  destruct (empty (dropna_all (rolling_mean 200 (getitem "Close" df)))).
  { cbn [negb bind] in H. destruct (first_notna r); discriminate. }
  cbn [negb] in H.
  destruct (iloc_last (dropna_all (rolling_mean 200 (getitem "Close" df))))
    as [r'|e] eqn:L'; [|discriminate].
  cbn [bind] in H.
  destruct (first_notna r) as [c0|] eqn:F; [|discriminate].
  destruct (first_notna r') as [d0|] eqn:F'; [|discriminate].
  injection H as <- <-.
  apply iloc_last_inv in L as (i & L). apply iloc_last_inv in L' as (i' & L').
  apply first_notna_inv in F as (j & F). apply first_notna_inv in F' as (j' & F').
  repeat split; [now exists i, r, j | now exists i', r', j'].
Qed.

Lemma last_valued_row_nth (t : list row) (i : nat) (r : row) :
  last_valued_row t i r -> nth i t [] = r /\ (i < List.length t)%nat.
Proof.
  intros (before & after & -> & <- & _ & _). split.
  - rewrite app_nth2 by lia. now rewrite Nat.sub_diag.
  - rewrite length_app. simpl. lia.
Qed.

Lemma valued_rows_not_after (t : list row) (i : nat) (r : row)
  (i' j : nat) (v : Q) :
  last_valued_row t i r -> nth j (nth i' t []) None = Some v -> (i' <= i)%nat.
Proof.
  intros (before & after & -> & <- & _ & Ha) Hv.
  destruct (Nat.le_gt_cases i' (List.length before)) as [Hle|Hgt]; [exact Hle|].
  exfalso. rewrite app_nth2 in Hv by lia.
  replace (i' - List.length before)%nat
    with (S (i' - S (List.length before))) in Hv by lia.
  simpl in Hv.
  destruct (Nat.lt_ge_cases (i' - S (List.length before)) (List.length after))
    as [Hin|Hout].
  - rewrite Forall_forall in Ha.
    rewrite (existsb_notna_false _ (Ha _ (nth_In after [] Hin)) j) in Hv.
    discriminate.
  - rewrite (nth_overflow after [] Hout) in Hv. destruct j; discriminate.
Qed.


Lemma full_window_length (t : list row) (i j : nat) (vs : list Q) :
  full_window t i j vs -> List.length vs = 200%nat.
Proof.
  intros (Hw & Hi & Hwin).
  rewrite <- (length_map Some vs), <- Hwin.
  apply window_length; [exact Hw | now rewrite column_length].
Qed.

Lemma full_window_cell (t : list row) (i j : nat) (vs : list Q) :
  full_window t i j vs -> nth j (nth i t []) None = Some (nth 199 vs 0).
Proof.
  intros FW. pose proof (full_window_length t i j vs FW) as L.
  destruct FW as (Hw & Hi & Hwin).
  assert (H1 : (1 <= 200)%nat) by lia.
  pose proof (window_last 200 (column j t) i H1 Hw) as H.
  rewrite Hwin, column_nth in H. rewrite <- H.
  change (200 - 1)%nat with 199%nat.
  rewrite (nth_indep _ None (Some 0)) by (rewrite length_map; lia).
  apply map_nth.
Qed.

Lemma dma_cell_inv (df : DataFrame) (i j : nat) (d : Q) :
  nth j (nth i (dma_table df) []) None = Some d ->
  exists vs, full_window (close_table df) i j vs /\ d = arithmetic_mean vs.
Proof.
  intros Hd.
  assert (Hi : (i < List.length (close_table df))%nat).
  { rewrite <- dma_table_length.
    destruct (Nat.lt_ge_cases i (List.length (dma_table df))) as [H|H];
      [exact H|].
    rewrite (nth_overflow (dma_table df) [] H) in Hd. destruct j; discriminate. }
  destruct (Nat.lt_ge_cases j (List.length (columns (getitem "Close" df))))
    as [Hj|Hj].
  - rewrite (dma_cell df i j Hi Hj) in Hd.
    apply rolling_value_inv in Hd as (Hw & vs & Hwin & ->).
    exists vs.
    assert (FW : full_window (close_table df) i j vs) by (repeat split; assumption).
    split; [exact FW|].
    unfold arithmetic_mean. now rewrite (full_window_length _ _ _ _ FW).
  - rewrite dma_table_rows, (nth_map_seq _ _ i [] Hi) in Hd.
    rewrite (nth_map_seq_default _ _ j None Hj) in Hd. discriminate.
Qed.

(** X3. When the extractor returns, the average it returns is read at a
    row where its column holds 200 consecutive present closes that end
    there; this row is the row of the close returned or an earlier one,
    never a later one, and never one of the first 199. *)
Theorem moving_average_read_at_full_window
  (df : DataFrame) (last_close last_dma : Q) :
  _get_last_close_and_dma (Some df) = Ok (last_close, last_dma) ->
  exists i r j i' r' j' vs,
    last_valued_row (close_table df) i r /\
    first_value r j last_close /\
    last_valued_row (dma_table df) i' r' /\
    first_value r' j' last_dma /\
    full_window (close_table df) i' j' vs /\
    (i' <= i)%nat /\ (199 <= i')%nat.
Proof.
  intros H.
  apply extract_Ok_inv in H
    as (_ & _ & (i & r & j & LV & FV) & (i' & r' & j' & LV' & FV')).
  destruct (last_valued_row_nth _ _ _ LV') as [Hr' _].
  pose proof (proj1 FV') as Hd. rewrite <- Hr' in Hd.
  destruct (dma_cell_inv df i' j' last_dma Hd) as (vs & FW & _).
  exists i, r, j, i', r', j', vs.
  split; [exact LV|]. split; [exact FV|]. split; [exact LV'|].
  split; [exact FV'|]. split; [exact FW|]. split.
  - apply (valued_rows_not_after _ i r i' j' _ LV (full_window_cell _ _ _ _ FW)).
  - destruct FW as (Hw & _ & _). lia.
Qed.

Lemma moving_average_read_at_full_window_witness :
  exists i r j i' r' j' vs,
    last_valued_row (close_table late_close_series) i r /\
    first_value r j 5 /\
    last_valued_row (dma_table late_close_series) i' r' /\
    first_value r' j' (200 # 200) /\
    full_window (close_table late_close_series) i' j' vs /\
    (i' <= i)%nat /\ (199 <= i')%nat.
Proof.
  apply (moving_average_read_at_full_window late_close_series 5 (200 # 200)).
  vm_compute. reflexivity.
Defined.

(** ** Frames that give the same answer *)






Lemma rolling_mean_at_app (w : nat) (xs ys : list cell) (i : nat) :
  (i < List.length xs)%nat ->
  rolling_mean_at w (xs ++ ys) i = rolling_mean_at w xs i.
Proof.
  intros Hi. unfold rolling_mean_at.
  destruct (w <=? S i)%nat eqn:E; [|reflexivity].
  apply Nat.leb_le in E.
  assert (W : window w (xs ++ ys) i = window w xs i).
  { unfold window. rewrite skipn_app.
    replace (S i - w - List.length xs)%nat with 0%nat by lia.
    rewrite firstn_app, length_skipn.
    replace (w - (List.length xs - (S i - w)))%nat with 0%nat by lia.
    cbn [skipn firstn]. now rewrite app_nil_r. }
  now rewrite W.
Qed.

Lemma column_app (j : nat) (t1 t2 : list row) :
  column j (t1 ++ t2) = column j t1 ++ column j t2.
Proof. apply map_app. Qed.

Lemma getitem_more_rows (df : DataFrame) (more : list row) :
  close_table (with_more_rows df more)
  = close_table df ++ map (select_label "Close" (columns df)) more.
Proof. unfold close_table, getitem, with_more_rows. cbn [values columns]. apply map_app. Qed.

(** Appending rows without a close leaves the valued rows of the table
    of moving averages as they were. *)
Lemma dma_more_rows (df : DataFrame) (more : list row) :
  no_value (map (select_label "Close" (columns df)) more) ->
  filter (existsb notna) (dma_table (with_more_rows df more))
  = filter (existsb notna) (dma_table df).
Proof.
  intros Hm. rewrite !dma_table_rows, getitem_more_rows.
  set (t := close_table df). set (m := map (select_label "Close" (columns df)) more) in *.
  change (columns (getitem "Close" (with_more_rows df more)))
    with (columns (getitem "Close" df)).
  set (k := List.length (columns (getitem "Close" df))).
  rewrite length_app, seq_app, map_app, filter_app. simpl (0 + _)%nat.
  assert (Tail : filter (existsb notna)
            (map (fun i => map (fun j => rolling_mean_at 200 (column j (t ++ m)) i)
                               (seq 0 k))
                 (seq (List.length t) (List.length m))) = []).
  { apply filter_nil_Forall, Forall_forall. intros r Hr.
    apply in_map_iff in Hr as (i & <- & Hi). apply in_seq in Hi.
    destruct (existsb notna _) eqn:E; [|reflexivity].
    apply existsb_exists in E as (x & Hx & Hn).
    apply in_map_iff in Hx as (j & <- & _).
    rewrite rolling_missing_at in Hn; [discriminate | lia | |].
    - rewrite column_length, length_app. lia.
    - rewrite column_nth, app_nth2 by lia.
      destruct (Nat.lt_ge_cases (i - List.length t) (List.length m)) as [Hin|Hout].
      + apply existsb_notna_false.
        unfold no_value in Hm. rewrite Forall_forall in Hm.
        apply Hm. now apply nth_In.
      + rewrite (nth_overflow m [] Hout). now destruct j. }
  rewrite Tail, app_nil_r. f_equal.
  apply map_ext_in. intros i Hi. apply in_seq in Hi.
  apply map_ext. intros j.
  rewrite column_app. apply rolling_mean_at_app. rewrite column_length. lia.
Qed.

Lemma has_column_getitem (df : DataFrame) :
  has_column "Close" df = true <-> columns (getitem "Close" df) <> [].
Proof. apply has_column_filter. Qed.

(** X6. Rows appended to a frame that has rows change nothing when they
    hold no close: sessions whose close is not there yet are passed
    over, whatever their other columns hold. *)
Theorem rows_without_close_are_ignored (df : DataFrame) (more : list row) :
  empty df = false ->
  no_value (map (select_label "Close" (columns df)) more) ->
  _get_last_close_and_dma (Some (with_more_rows df more))
  = _get_last_close_and_dma (Some df).
Proof.
  intros He Hm.
  assert (He' : empty (with_more_rows df more) = false).
  { apply empty_false_inv in He as [Hc Hv].
    unfold empty, with_more_rows. cbn [columns values].
    destruct (columns df); [contradiction|].
    destruct (values df); [contradiction | reflexivity]. }
  destruct (has_column "Close" df) eqn:Hc.
  2:{ unfold _get_last_close_and_dma. rewrite He, He'.
      change (has_column "Close" (with_more_rows df more))
        with (has_column "Close" df).
      now rewrite Hc. }
  rewrite (extract_guarded df He Hc).
  rewrite (extract_guarded (with_more_rows df more) He' Hc).
  assert (C : values (dropna_all (getitem "Close" (with_more_rows df more)))
              = values (dropna_all (getitem "Close" df))).
  { unfold dropna_all. cbn [values].
    change (values (getitem "Close" (with_more_rows df more)))
      with (close_table (with_more_rows df more)).
    rewrite getitem_more_rows, filter_app.
    rewrite (proj2 (filter_nil_Forall (existsb notna) _) Hm).
    now rewrite app_nil_r. }
  assert (D : dropna_all (rolling_mean 200 (getitem "Close" (with_more_rows df more)))
              = dropna_all (rolling_mean 200 (getitem "Close" df))).
  { unfold dropna_all. f_equal. apply (dma_more_rows df more Hm). }
  rewrite D. unfold iloc_last at 1 3. now rewrite C.
Qed.

Lemma rows_without_close_are_ignored_witness :
  _get_last_close_and_dma (Some (with_more_rows dipping_series unfinished_rows))
  = _get_last_close_and_dma (Some dipping_series).
Proof.
  apply rows_without_close_are_ignored; [reflexivity|].
  unfold no_value. vm_compute. repeat constructor.
Defined.

(** X7. The extractor reads nothing but the columns labelled "Close":
    two frames with rows and the same closes give the same answer. *)
Theorem only_close_columns_matter (df1 df2 : DataFrame) :
  empty df1 = false -> empty df2 = false ->
  getitem "Close" df1 = getitem "Close" df2 ->
  _get_last_close_and_dma (Some df1) = _get_last_close_and_dma (Some df2).
Proof.
  intros E1 E2 H.
  destruct (has_column "Close" df1) eqn:C1, (has_column "Close" df2) eqn:C2.
  - rewrite (extract_guarded df1 E1 C1), (extract_guarded df2 E2 C2).
    now rewrite H.
  - apply has_column_getitem in C1. rewrite H in C1.
    apply has_column_getitem in C1. congruence.
  - apply has_column_getitem in C2. rewrite <- H in C2.
    apply has_column_getitem in C2. congruence.
  - unfold _get_last_close_and_dma. now rewrite E1, E2, C1, C2.
Qed.

Lemma only_close_columns_matter_witness :
  _get_last_close_and_dma (Some dipping_series_other_columns)
  = _get_last_close_and_dma (Some dipping_series).
Proof.
  apply only_close_columns_matter; vm_compute; reflexivity.
Defined.

(** * Further properties of the classifier *)

(** ** Rounding *)

Lemma round_half_even_comp (x y : Q) :
  x == y -> round_half_even x = round_half_even y.
Proof.
  intros H. unfold round_half_even. cbv zeta.
  rewrite (Qfloor_comp x y H).
  assert (C : Qcompare (x - inject_Z (Qfloor y)) (1 # 2)
              = Qcompare (y - inject_Z (Qfloor y)) (1 # 2)) by (now rewrite H).
  now rewrite C.
Qed.

Lemma round2_comp (x y : Q) : x == y -> round2 x = round2 y.
Proof.
  intros H. unfold round2. apply Qred_complete.
  now rewrite (round_half_even_comp (x * 100) (y * 100)) by (now rewrite H).
Qed.

Lemma round_half_even_range (q : Q) :
  (Qfloor q <= round_half_even q <= Qfloor q + 1)%Z.
Proof.
  unfold round_half_even. cbv zeta.
  destruct (Qcompare _ _); try destruct (Z.even _); lia.
Qed.

Lemma round_half_even_mono (x y : Q) :
  x <= y -> (round_half_even x <= round_half_even y)%Z.
Proof.
  intros H. pose proof (Qfloor_resp_le x y H) as Hf.
  destruct (Z.eq_dec (Qfloor x) (Qfloor y)) as [E|N].
  - unfold round_half_even. cbv zeta. rewrite <- E.
    destruct (Qcompare_spec (x - inject_Z (Qfloor x)) (1 # 2));
      destruct (Qcompare_spec (y - inject_Z (Qfloor x)) (1 # 2));
      try destruct (Z.even (Qfloor x)); try lia; exfalso; lra.
  - pose proof (round_half_even_range x). pose proof (round_half_even_range y).
    lia.
Qed.

Lemma round_half_even_inject_Z (q : Q) (n : Z) :
  q == inject_Z n -> round_half_even q = n.
Proof.
  intros H. rewrite (round_half_even_comp q (inject_Z n) H).
  unfold round_half_even. cbv zeta. rewrite Qfloor_Z.
  destruct (Qcompare_spec (inject_Z n - inject_Z n) (1 # 2)) as [E|L|G].
  - exfalso. lra.
  - reflexivity.
  - exfalso. lra.
Qed.

Lemma round2_hundredths (n : Z) :
  round2 (inject_Z n / 100) = Qred (inject_Z n / 100).
Proof.
  unfold round2. rewrite (round_half_even_inject_Z _ n); [reflexivity|].
  field.
Qed.

Lemma round2_le (x y : Q) : x <= y -> round2 x <= round2 y.
Proof.
  intros H. unfold round2. rewrite !Qred_correct.
  unfold Qdiv. apply Qmult_le_compat_r; [|discriminate].
  rewrite <- Zle_Qle. apply round_half_even_mono.
  apply Qmult_le_compat_r; [exact H | discriminate].
Qed.

(** X8. Rounding to two places keeps the order of numbers: a lower dip
    is never shown as a higher one. *)
Theorem round2_monotone (x y : Q) : x <= y -> round2 x <= round2 y.
Proof.
  intros H. unfold round2. rewrite !Qred_correct.
  unfold Qdiv. apply Qmult_le_compat_r; [|discriminate].
  rewrite <- Zle_Qle. apply round_half_even_mono.
  apply Qmult_le_compat_r; [exact H | discriminate].
Qed.

Lemma round2_monotone_witness :
  9.999 <= 10 /\ round2 9.999 <= round2 10.
Proof.
  assert (H : 9.999 <= 10) by (unfold Qle; simpl; lia).
  split; [exact H | exact (round2_monotone 9.999 10 H)].
Defined.

(** X9. Rounding to two places leaves a number of hundredths as it is
    (in lowest terms), so rounding twice is rounding once. *)
Theorem round2_idempotent :
  (forall n : Z, round2 (inject_Z n / 100) = Qred (inject_Z n / 100)) /\
  (forall x : Q, round2 (round2 x) = round2 x).
Proof.
  split; [exact round2_hundredths|].
  intros x.
  rewrite (round2_comp (round2 x) (inject_Z (round_half_even (x * 100)) / 100))
    by (unfold round2; apply Qred_correct).
  now rewrite round2_hundredths.
Qed.

(** X12. Every answer has rows, and in every row the dip shown agrees
    with the tier: at least 10 beside "Deploy 100%", from 7 to 10 beside
    "Deploy 50%", from 4 to 7 beside "Deploy 25%", at most 4 beside
    "Hold". *)
Theorem shown_dip_agrees_with_tier
  (download : string -> result (option DataFrame)) (rows : list DipRow) :
  get_dip download = Ok rows ->
  rows <> [] /\
  Forall (fun r =>
            (Action r = "🟢 Deploy 100%"%string /\ 10 <= Dip_pct r) \/
            (Action r = "🟡 Deploy 50%"%string /\
             7 <= Dip_pct r /\ Dip_pct r <= 10) \/
            (Action r = "🟠 Deploy 25%"%string /\
             4 <= Dip_pct r /\ Dip_pct r <= 7) \/
            (Action r = "⚪ Hold"%string /\ Dip_pct r <= 4)) rows.
Proof.
  intros H. split; [exact (get_dip_Ok_nonempty download rows H)|].
  eapply Forall_impl; [|apply (get_dip_rows_origin download rows H)].
  intros r (name & ticker & _ & Hb).
  apply body_emits_inv in Hb as (_ & data & c & m & _ & _ & Hc).
  apply classify_Ok_inv in Hc as (Hm & ->).
  set (dip := (m - c) / m * 100).
  destruct (make_row_fields name ticker c m dip) as (_ & _ & -> & -> & _).
  assert (R10 : round2 10 == 10) by reflexivity.
  assert (R7 : round2 7 == 7) by reflexivity.
  assert (R4 : round2 4 == 4) by reflexivity.
  destruct (select_action_cases dip)
    as [[H1 E]|[[H1 [H2 E]]|[[H1 [H2 E]]|[H1 E]]]];
    rewrite E; cbn [fst]; unfold dip_100, dip_50, dip_25 in *.
  - left. split; [reflexivity|].
    rewrite <- R10. now apply round2_le.
  - right; left. split; [reflexivity|]. split.
    + rewrite <- R7. now apply round2_le.
    + rewrite <- R10. apply round2_le. now apply Qlt_le_weak.
  - right; right; left. split; [reflexivity|]. split.
    + rewrite <- R4. now apply round2_le.
    + rewrite <- R7. apply round2_le. now apply Qlt_le_weak.
  - right; right; right. split; [reflexivity|].
    rewrite <- R4. apply round2_le. now apply Qlt_le_weak.
Qed.

Lemma shown_dip_agrees_with_tier_witness :
  match get_dip two_down with
  | Ok rows =>
      List.length rows = 4%nat /\
      rows <> [] /\
      Forall (fun r =>
                (Action r = "🟢 Deploy 100%"%string /\ 10 <= Dip_pct r) \/
                (Action r = "🟡 Deploy 50%"%string /\
                 7 <= Dip_pct r /\ Dip_pct r <= 10) \/
                (Action r = "🟠 Deploy 25%"%string /\
                 4 <= Dip_pct r /\ Dip_pct r <= 7) \/
                (Action r = "⚪ Hold"%string /\ Dip_pct r <= 4)) rows
  | Raise _ => False
  end.
Proof.
  pose proof (shown_dip_agrees_with_tier two_down) as H.
  destruct (get_dip two_down) as [rows|e] eqn:E.
  - split; [|apply H; reflexivity].
    vm_compute in E. injection E as <-. reflexivity.
  - vm_compute in E. discriminate E.
Defined.

(** * Further properties of the batch *)

Lemma classify_Raise_inv (name ticker : string) (c m : Q) (e : exn) :
  classify name ticker c m = Raise e ->
  m == 0 /\ e = ZeroDivisionError "float division by zero".
Proof.
  unfold classify, dip_percent, truediv. intros H.
  destruct (Qeq_bool m 0) eqn:E; simpl in H; [|discriminate].
  split; [now apply Qeq_bool_eq | congruence].
Qed.

Lemma classify_zero (name ticker : string) (c m : Q) :
  m == 0 ->
  classify name ticker c m = Raise (ZeroDivisionError "float division by zero").
Proof. intros H. unfold classify, dip_percent. now rewrite truediv_zero. Qed.

Section BatchOutcomes.

Variable download : string -> result (option DataFrame).

Lemma body_Raise_inv (name ticker : string) (e : exn) :
  get_dip_body download name ticker = Raise e ->
  zero_average_instrument download (name, ticker) /\
  e = ZeroDivisionError "float division by zero".
Proof.
  intros H.
  destruct (instrument_fails download ticker) eqn:F.
  - rewrite (body_of_failing download name ticker F) in H. discriminate.
  - destruct (body_of_surviving download name ticker F)
      as (data & c & m & Hd & Hn & He & Hb).
    rewrite Hb in H.
    destruct (classify name ticker c m) as [r|e'] eqn:C; [discriminate|].
    injection H as <-.
    apply classify_Raise_inv in C as [Hm ->].
    split; [|reflexivity]. now exists data, c, m.
Qed.

Lemma body_of_zero_average (name ticker : string) :
  zero_average_instrument download (name, ticker) ->
  get_dip_body download name ticker
  = Raise (ZeroDivisionError "float division by zero").
Proof.
  intros (data & c & m & Hd & Hn & He & Hm). simpl in Hd.
  unfold get_dip_body. rewrite Hd, Hn, He.
  now rewrite (classify_zero name ticker c m Hm).
Qed.

Lemma body_None_inv (name ticker : string) :
  get_dip_body download name ticker = Ok None ->
  instrument_fails download ticker = true.
Proof.
  intros H. destruct (instrument_fails download ticker) eqn:F; [reflexivity|].
  destruct (body_of_surviving download name ticker F)
    as (data & c & m & _ & _ & _ & Hb).
  rewrite Hb in H. destruct (classify name ticker c m); discriminate.
Qed.

Lemma collect_Ok_labels (items : list (string * string)) :
  forall rows,
    collect download items = Ok rows ->
    map (fun r => (Index r, Ticker r)) rows = surviving download items.
Proof.
  induction items as [|[name ticker] rest IH]; intros rows H; simpl in H.
  - now injection H as <-.
  - destruct (get_dip_body download name ticker) as [o|e] eqn:B;
      [|discriminate].
    cbn [bind] in H.
    destruct (collect download rest) as [rows'|e]; [|discriminate].
    cbn [bind] in H. injection H as <-.
    unfold surviving. cbn [filter snd].
    destruct o as [r|].
    + destruct (body_emits_inv download name ticker r B) as [F _].
      destruct (body_emits_labels download name ticker r B) as [Hi Ht].
      rewrite F. cbn [negb map]. rewrite Hi, Ht. f_equal. now apply IH.
    + rewrite (body_None_inv name ticker B). cbn [negb]. now apply IH.
Qed.

Lemma collect_Raise_inv (items : list (string * string)) (e : exn) :
  collect download items = Raise e ->
  e = ZeroDivisionError "float division by zero" /\
  exists item, In item items /\ zero_average_instrument download item.
Proof.
  induction items as [|[name ticker] rest IH]; intros H; simpl in H;
    [discriminate|].
  destruct (get_dip_body download name ticker) as [o|e'] eqn:B.
  - cbn [bind] in H.
    destruct (collect download rest) as [rows'|e'] eqn:C; [discriminate|].
    cbn [bind] in H. injection H as <-.
    destruct (IH eq_refl) as (-> & item & Hin & Hz).
    split; [reflexivity|]. exists item. split; [now right | exact Hz].
  - cbn [bind] in H. injection H as <-.
    apply body_Raise_inv in B as [Hz ->].
    split; [reflexivity|]. exists (name, ticker). split; [now left | exact Hz].
Qed.

Lemma collect_of_zero_average (items : list (string * string)) :
  (exists item, In item items /\ zero_average_instrument download item) ->
  collect download items = Raise (ZeroDivisionError "float division by zero").
Proof.
  induction items as [|[name ticker] rest IH]; intros (item & Hin & Hz);
    [contradiction|].
  simpl.
  destruct (get_dip_body download name ticker) as [o|e] eqn:B.
  - destruct Hin as [<-|Hin].
    + rewrite (body_of_zero_average name ticker Hz) in B. discriminate.
    + cbn [bind]. rewrite IH by (now exists item). reflexivity.
  - apply body_Raise_inv in B as [_ ->]. reflexivity.
Qed.

End BatchOutcomes.

Lemma surviving_nil_iff (download : string -> result (option DataFrame))
  (items : list (string * string)) :
  surviving download items = [] <->
  forall name ticker, In (name, ticker) items ->
                      instrument_fails download ticker = true.
Proof.
  unfold surviving. rewrite filter_nil_Forall, Forall_forall. split.
  - intros H name ticker Hin. specialize (H _ Hin). simpl in H.
    now apply negb_false_iff in H.
  - intros H [name ticker] Hin. simpl. now rewrite (H name ticker Hin).
Qed.

(** X13. What [get_dip] raises: the "No results available" error
    exactly when every configured instrument is dropped, a
    [ZeroDivisionError] exactly when some instrument that is kept has a
    moving average of zero, and nothing else; what the download or the
    extractor raised is never passed on. *)
Theorem get_dip_errors (download : string -> result (option DataFrame)) :
  (forall e, get_dip download = Raise e ->
             e = no_results \/ e = ZeroDivisionError "float division by zero") /\
  (get_dip download = Raise no_results <->
   forall name ticker, In (name, ticker) index_options ->
                       instrument_fails download ticker = true) /\
  (get_dip download = Raise (ZeroDivisionError "float division by zero") <->
   exists item, In item index_options /\ zero_average_instrument download item).
Proof.
  rewrite get_dip_collect.
  destruct (collect download index_options) as [rows|e0] eqn:C; cbn [bind].
  - pose proof (collect_Ok_labels download _ _ C) as L.
    split; [|split].
    + intros e H. destruct rows; [|discriminate]. injection H as <-. now left.
    + rewrite <- surviving_nil_iff, <- L. destruct rows; simpl.
      * split; reflexivity.
      * split; discriminate.
    + split.
      * destruct rows; discriminate.
      * intros Hz. apply (collect_of_zero_average download) in Hz. congruence.
  - apply collect_Raise_inv in C as (-> & Hz).
    split; [|split].
    + intros e H. injection H as <-. now right.
    + split; [discriminate|].
      intros Hall. destruct Hz as ([name ticker] & Hin & data & c & m & Hd & Hn & He & _).
      specialize (Hall name ticker Hin). simpl in Hd.
      unfold instrument_fails in Hall. rewrite Hd, Hn, He in Hall. discriminate.
    + split; [intros _; exact Hz | reflexivity].
Qed.

Lemma get_dip_errors_witness :
  get_dip one_zero = Raise (ZeroDivisionError "float division by zero").
Proof.
  apply (proj2 (proj2 (proj2 (get_dip_errors one_zero)))).
  exists ("NASDAQ", "^IXIC")%string. split; [simpl; tauto|].
  eexists. eexists. eexists.
  split; [reflexivity|]. split; [reflexivity|].
  split; [vm_compute; reflexivity | reflexivity].
Defined.

Lemma NoDup_map_fst_filter {A B : Type} (f : A * B -> bool) (l : list (A * B)) :
  NoDup (map fst l) -> NoDup (map fst (filter f l)).
Proof.
  induction l as [|x l IH]; simpl; intros H; [constructor|].
  inversion H as [|? ? Hnotin Hnd]; subst.
  destruct (f x); simpl; [|now apply IH].
  constructor; [|now apply IH].
  intros Hin. apply Hnotin.
  apply in_map_iff in Hin as (y & Hy & Hyin).
  apply filter_In in Hyin as [Hyin _].
  rewrite <- Hy. now apply in_map.
Qed.

(** X14. An answer of [get_dip] is never empty; its rows are those of
    the instruments that were not dropped, in the order of the
    configuration, so at most six, with distinct index names. *)
Theorem get_dip_answer_rows
  (download : string -> result (option DataFrame)) (rows : list DipRow) :
  get_dip download = Ok rows ->
  rows <> [] /\
  map (fun r => (Index r, Ticker r)) rows = surviving download index_options /\
  (List.length rows <= 6)%nat /\
  NoDup (map Index rows).
Proof.
  rewrite get_dip_collect. intros H.
  destruct (collect download index_options) as [rows'|e] eqn:C;
    cbn [bind] in H; [|discriminate].
  destruct rows' as [|r rows']; simpl in H; [discriminate|].
  injection H as <-.
  pose proof (collect_Ok_labels download _ _ C) as L.
  split; [discriminate|]. split; [exact L|]. split.
  - rewrite <- (length_map (fun r => (Index r, Ticker r))), L.
    unfold surviving.
    apply (Nat.le_trans _ _ _ (filter_length_le _ index_options)).
    simpl. lia.
  - assert (M : map Index (r :: rows') = map fst (surviving download index_options)).
    { rewrite <- L, map_map. reflexivity. }
    rewrite M. apply NoDup_map_fst_filter.
    simpl. repeat constructor; simpl; intuition discriminate.
Qed.

Lemma get_dip_answer_rows_witness :
  match get_dip two_down with
  | Ok rows =>
      rows <> [] /\
      map (fun r => (Index r, Ticker r)) rows = surviving two_down index_options /\
      (List.length rows <= 6)%nat /\
      NoDup (map Index rows)
  | Raise _ => False
  end.
Proof.
  pose proof (get_dip_answer_rows two_down) as H.
  destruct (get_dip two_down) as [rows|e] eqn:E.
  - apply H. reflexivity.
  - vm_compute in E. discriminate E.
Defined.

Lemma collect_ext (d1 d2 : string -> result (option DataFrame))
  (items : list (string * string)) :
  (forall name ticker, In (name, ticker) items -> d1 ticker = d2 ticker) ->
  collect d1 items = collect d2 items.
Proof.
  induction items as [|[name ticker] rest IH]; intros H; [reflexivity|].
  simpl. unfold get_dip_body.
  rewrite (H name ticker (or_introl eq_refl)).
  rewrite IH; [reflexivity|].
  intros n t Hin. apply (H n t). now right.
Qed.

(** X16. [get_dip] asks for the six configured tickers and for nothing
    else: two sources of data that agree on these six give the same
    answer. *)
Theorem get_dip_reads_configured_tickers
  (d1 d2 : string -> result (option DataFrame)) :
  (forall name ticker, In (name, ticker) index_options -> d1 ticker = d2 ticker) ->
  get_dip d1 = get_dip d2.
Proof.
  intros H. rewrite !get_dip_collect. now rewrite (collect_ext d1 d2 _ H).
Qed.

Lemma get_dip_reads_configured_tickers_witness :
  get_dip two_down_and_more = get_dip two_down.
Proof.
  apply get_dip_reads_configured_tickers.
  intros name ticker Hin. simpl in Hin.
  destruct Hin as [E|[E|[E|[E|[E|[E|[]]]]]]]; injection E as <- <-; reflexivity.
Defined.

(** * Properties of [list_routes] *)

Lemma leb_spec_lt (a b : string) :
  String.leb a b = true <-> String_as_OT.lt a b \/ a = b.
Proof.
  unfold String.leb.
  destruct (String.compare a b) eqn:C; split; intros H; try reflexivity.
  - right. now apply String_as_OT.cmp_eq.
  - left. now apply String_as_OT.cmp_lt.
  - discriminate.
  - exfalso. destruct H as [H| ->].
    + apply String_as_OT.cmp_lt in H. unfold String_as_OT.cmp in H. congruence.
    + assert (E : String_as_OT.cmp b b = Eq) by (now apply String_as_OT.cmp_eq).
      unfold String_as_OT.cmp in E. congruence.
Qed.

Lemma leb_trans (a b c : string) :
  String.leb a b = true -> String.leb b c = true -> String.leb a c = true.
Proof.
  rewrite !leb_spec_lt. intros [H1| ->] [H2| ->]; auto.
  left. now apply (String_as_OT.lt_trans a b c).
Qed.

Lemma insort_perm (s : string) (l : list string) :
  Permutation (insort s l) (s :: l).
Proof.
  induction l as [|x l IH]; simpl; [reflexivity|].
  destruct (String.leb s x); [reflexivity|].
  rewrite IH. apply perm_swap.
Qed.

Lemma sorted_perm (l : list string) : Permutation (sorted l) l.
Proof.
  induction l as [|x l IH]; simpl; [reflexivity|].
  rewrite insort_perm. now constructor.
Qed.

Lemma insort_ascending (s : string) (l : list string) :
  ascending l -> ascending (insort s l).
Proof.
  unfold ascending. induction l as [|x l IH]; simpl; intros H.
  - repeat constructor.
  - destruct (String.leb s x) eqn:E.
    + constructor; [exact H | now constructor].
    + inversion H as [|? ? Hs Hh]; subst.
      constructor; [now apply IH|].
      assert (Hx : String.leb x s = true)
        by (destruct (String.leb_total s x); congruence).
      destruct l as [|y l]; simpl.
      * now constructor.
      * destruct (String.leb s y); constructor; [exact Hx|].
        now inversion Hh.
Qed.

Lemma sorted_ascending (l : list string) : ascending (sorted l).
Proof.
  induction l as [|x l IH]; simpl; [constructor | now apply insort_ascending].
Qed.

Lemma ascending_strong (l : list string) :
  ascending l -> StronglySorted (fun a b => String.leb a b = true) l.
Proof.
  apply Sorted_StronglySorted. intros a b c. apply leb_trans.
Qed.

(** Two ascending lists with the same elements are the same list. *)
Lemma ascending_unique (l1 l2 : list string) :
  ascending l1 -> ascending l2 -> Permutation l1 l2 -> l1 = l2.
Proof.
  intros H1 H2. apply ascending_strong in H1, H2.
  revert l2 H2. induction H1 as [|a l1 Hs1 IH Ha]; intros l2 H2 P.
  - apply Permutation_nil in P. now subst.
  - destruct H2 as [|b l2 Hs2 Hb].
    + apply Permutation_sym, Permutation_nil in P. discriminate.
    + assert (E : a = b).
      { rewrite Forall_forall in Ha, Hb.
        assert (Ia : In a (b :: l2)) by (apply (Permutation_in _ P); now left).
        assert (Ib : In b (a :: l1))
          by (apply (Permutation_in _ (Permutation_sym P)); now left).
        destruct Ia as [->|Ia]; [reflexivity|].
        destruct Ib as [->|Ib]; [reflexivity|].
        apply String.leb_antisym; [now apply Ha | now apply Hb]. }
      subst b. f_equal. apply IH; [exact Hs2|].
      now apply Permutation_cons_inv in P.
Qed.

Lemma list_routes_loop_acc (app_routes : list Route) :
  forall acc,
    list_routes_loop app_routes acc
    = match list_routes_loop app_routes [] with
      | inl e => inl e
      | inr entries => inr (acc ++ entries)
      end.
Proof.
  induction app_routes as [|r rest IH]; intros acc; simpl.
  - now rewrite app_nil_r.
  - destruct (route_methods r) as [e|ms]; [reflexivity|].
    rewrite IH. rewrite (IH [(path r, ms)]).
    destruct (list_routes_loop rest []); [reflexivity|].
    now rewrite <- app_assoc.
Qed.

Lemma list_routes_cons (r : Route) (rest : list Route) :
  list_routes (r :: rest)
  = match route_methods r with
    | inl e => inl e
    | inr ms =>
        match list_routes rest with
        | inl e => inl e
        | inr entries => inr ((path r, ms) :: entries)
        end
    end.
Proof.
  unfold list_routes. simpl. destruct (route_methods r) as [e|ms]; [reflexivity|].
  now rewrite list_routes_loop_acc.
Qed.

(** X18. When no route holds [None] for its methods, [list_routes]
    answers with one entry per route, in the order of the routes: the
    entry has the path of the route and its methods in ascending order,
    each once, or no method for a route without the attribute. *)
Theorem list_routes_entries (app_routes : list Route) :
  Forall (fun r => methods r <> AttrNone) app_routes ->
  exists entries,
    list_routes app_routes = inr entries /\
    Forall2 entry_of app_routes entries /\
    map fst entries = map path app_routes.
Proof.
  induction 1 as [|r rest Hr _ (entries & He & Hf & Hm)].
  - exists []. repeat split. constructor.
  - rewrite list_routes_cons, He. unfold route_methods, entry_of.
    destruct (methods r) as [| |ms] eqn:M; [|contradiction|].
    + exists ((path r, []) :: entries). split; [reflexivity|]. split.
      * constructor; [|exact Hf]. unfold entry_of. now rewrite M.
      * simpl. now rewrite Hm.
    + exists ((path r, sorted ms) :: entries). split; [reflexivity|]. split.
      * constructor; [|exact Hf]. unfold entry_of. rewrite M. simpl.
        repeat split; [apply sorted_ascending | apply sorted_perm].
      * simpl. now rewrite Hm.
Qed.

Lemma list_routes_entries_witness :
  exists entries,
    list_routes app_routes_example = inr entries /\
    Forall2 entry_of app_routes_example entries /\
    map fst entries = map path app_routes_example.
Proof.
  apply list_routes_entries.
  unfold app_routes_example. repeat constructor; simpl; discriminate.
Defined.

(** X19. The methods that [list_routes] shows for a route do not depend
    on the order in which the set of methods is iterated. *)
Theorem sorted_methods_order_free (ms ms' : list string) :
  Permutation ms ms' -> sorted ms = sorted ms'.
Proof.
  intros P. apply ascending_unique; try apply sorted_ascending.
  rewrite !sorted_perm. exact P.
Qed.

Lemma sorted_methods_order_free_witness :
  sorted ["HEAD"; "GET"]%string = sorted ["GET"; "HEAD"]%string.
Proof.
  apply sorted_methods_order_free. apply perm_swap.
Defined.

(** X20. A route that holds [None] for its methods makes [list_routes]
    raise a [TypeError], wherever the route stands among the routes. *)
Theorem list_routes_none_methods (app_routes : list Route) (r : Route) :
  In r app_routes -> methods r = AttrNone ->
  list_routes app_routes = inl (TypeError "'NoneType' object is not iterable").
Proof.
  intros Hin Hr. induction app_routes as [|r' rest IH]; [contradiction|].
  rewrite list_routes_cons. unfold route_methods.
  destruct Hin as [->|Hin].
  - now rewrite Hr.
  - rewrite (IH Hin). now destruct (methods r').
Qed.

Lemma list_routes_none_methods_witness :
  list_routes (app_routes_example ++ [mkRoute "/asgi" AttrNone])
  = inl (TypeError "'NoneType' object is not iterable").
Proof.
  apply (list_routes_none_methods _ (mkRoute "/asgi" AttrNone)); [|reflexivity].
  apply in_or_app. right. now left.
Defined.
